(** * ascii_username_generator: a shallow embedding of the username pipeline

    The development follows [ascii_username_generator.py]: Python strings are
    sequences of Unicode code points, methods of [UsernameGenerator] that
    touch the widgets, the logger or the random module are written in a
    state-and-exception monad over the application state, and the WordNet
    corpus and the Unicode character database are parameters. *)

From Stdlib Require Import List ZArith NArith Lia Bool String Ascii.
From Stdlib Require Import Sorted Permutation.
Import ListNotations.

Local Open Scope Z_scope.

(** ** Python strings *)

Module PyStr.

(** A character is its code point; [str] is a sequence of them. *)
Definition char := N.
Definition str := list char.

Definition ord (c : char) : Z := Z.of_N c.
Definition len {A} (l : list A) : Z := Z.of_nat (List.length l).

(** A literal of the source, byte per byte (the literals used are ASCII). *)
Definition lit (s : string) : str := List.map N_of_ascii (list_ascii_of_string s).

Definition char_eqb (a b : char) : bool := N.eqb a b.

Fixpoint str_eqb (a b : str) : bool :=
  match a, b with
  | [], [] => true
  | x :: a', y :: b' => char_eqb x y && str_eqb a' b'
  | _, _ => false
  end.

(** [a < b] on strings: lexicographic on code points. *)
Fixpoint str_ltb (a b : str) : bool :=
  match a, b with
  | _, [] => false
  | [], _ :: _ => true
  | x :: a', y :: b' =>
      if N.ltb x y then true
      else if N.ltb y x then false
      else str_ltb a' b'
  end.

(** [a <= b], as the sort sees it: not [b < a]. *)
Definition str_le (a b : str) : Prop := str_ltb b a = false.

Definition is_ascii_char (c : char) : bool := ord c <? 128.
Definition is_ascii (s : str) : bool := forallb is_ascii_char s.

Definition is_ascii_upper (c : char) : bool := (65 <=? c)%N && (c <=? 90)%N.
Definition is_ascii_lower (c : char) : bool := (97 <=? c)%N && (c <=? 122)%N.
Definition is_ascii_digit (c : char) : bool := (48 <=? c)%N && (c <=? 57)%N.
Definition is_ascii_alnum (c : char) : bool :=
  is_ascii_upper c || is_ascii_lower c || is_ascii_digit c.

Definition ascii_lower (c : char) : char :=
  if is_ascii_upper c then (c + 32)%N else c.
Definition ascii_upper (c : char) : char :=
  if is_ascii_lower c then (c - 32)%N else c.

(** The Unicode character database behind [str.lower], [str.upper],
    [str.capitalize] and [str.isalnum].  It is consulted for code points from
    128 on only; the ASCII range is written out above.  [lower_ucs4] gets the
    whole string and the position, since the lower case of a capital sigma
    depends on its neighbours. *)
Record UnicodeData := {
  lower_ucs4 : str -> nat -> char -> str;
  to_upper_full : char -> str;
  to_title_full : char -> str;
  unicode_isalnum : char -> bool
}.

Section CaseMapping.
Variable ucd : UnicodeData.

Definition lower_char (data : str) (i : nat) (c : char) : str :=
  if is_ascii_char c then [ascii_lower c] else lower_ucs4 ucd data i c.
Definition upper_char (c : char) : str :=
  if is_ascii_char c then [ascii_upper c] else to_upper_full ucd c.
Definition title_char (c : char) : str :=
  if is_ascii_char c then [ascii_upper c] else to_title_full ucd c.

(** Lower-case the characters of [rest], which start at position [i] of
    [data]. *)
Fixpoint lower_from (data : str) (i : nat) (rest : str) : str :=
  match rest with
  | [] => []
  | c :: rest' => lower_char data i c ++ lower_from data (S i) rest'
  end.

Definition str_lower (s : str) : str := lower_from s 0 s.

Definition str_upper (s : str) : str := flat_map upper_char s.

(** First character to title case, the others to lower case. *)
Definition str_capitalize (s : str) : str :=
  match s with
  | [] => []
  | c :: rest => title_char c ++ lower_from s 1 rest
  end.

Definition isalnum_char (c : char) : bool :=
  if is_ascii_char c then is_ascii_alnum c else unicode_isalnum ucd c.

(** [str.isalnum]: every character alphanumeric, and at least one. *)
Definition str_isalnum (s : str) : bool :=
  match s with
  | [] => false
  | _ => forallb isalnum_char s
  end.
End CaseMapping.

(** ** Decimal formatting of integers *)

Definition digit_char (d : Z) : char := Z.to_N (48 + d).

Fixpoint decimal_digits (fuel : nat) (n : Z) (acc : str) : str :=
  match fuel with
  | O => acc
  | S fuel' =>
      let acc' := digit_char (n mod 10) :: acc in
      if n / 10 =? 0 then acc' else decimal_digits fuel' (n / 10) acc'
  end.

(** The decimal digits of [n >= 0]; a number has at most [log2 n + 1] of them. *)
Definition digits_of (n : Z) : str :=
  decimal_digits (S (Z.to_nat (Z.log2 n))) n [].

Definition minus_sign : char := 45%N.
Definition zero_char : char := 48%N.

(** [str(n)] *)
Definition int_to_str (n : Z) : str :=
  if n <? 0 then minus_sign :: digits_of (- n) else digits_of n.

(** [format(n, "0<width>d")]: the sign first, then zeros up to [width]. *)
Definition format_0d (width : nat) (n : Z) : str :=
  let sign := if n <? 0 then [minus_sign] else [] in
  let body := digits_of (Z.abs n) in
  sign ++ repeat zero_char (width - List.length sign - List.length body) ++ body.

End PyStr.
Import PyStr.

(** ** Exceptions, the application state and its monad *)

Record exception := mkException {
  exc_class : string;   (* the class of the exception *)
  exc_str : str         (* [str(exc)] *)
}.

Inductive result (A : Type) : Type :=
| Ok (a : A)
| Raise (e : exception).
Arguments Ok {A} a.
Arguments Raise {A} e.

Definition IndexError (msg : string) : exception := mkException "IndexError" (lit msg).
Definition ValueError (msg : string) : exception := mkException "ValueError" (lit msg).

Inductive log_level := DEBUG | INFO | WARNING | ERROR | CRITICAL.

(** What the methods read and write: the random module's generator (a stream
    of raw draws and the number of draws consumed), the two style variables,
    the rows of the result table, the text inserted in the log window, the
    records handed to [LOGGER], and the clock as the formatter of the log
    window's handler reads it: [asctime n] is the time stamp of the record
    number [n].  The log file and the console, to which [LOGGER] has
    handlers too, are outside the state. *)
Record World := mkWorld {
  rand_tape : nat -> N;
  rand_pos : nat;
  case_var : str;
  number_var : str;
  tree : list (str * str);
  log_output : list str;
  LOGGER : list (log_level * str);
  asctime : nat -> str
}.

Definition M (A : Type) : Type := World -> result A * World.

Definition ret {A} (a : A) : M A := fun w => (Ok a, w).
Definition raise {A} (e : exception) : M A := fun w => (Raise e, w).
Definition bind {A B} (m : M A) (k : A -> M B) : M B :=
  fun w => match m w with
           | (Ok a, w') => k a w'
           | (Raise e, w') => (Raise e, w')
           end.

Declare Scope py_scope.
Delimit Scope py_scope with py.
Notation "x <- m ;; k" := (bind m (fun x => k))
  (at level 61, m at next level, right associativity) : py_scope.
Notation "m ;; k" := (bind m (fun _ => k))
  (at level 61, right associativity) : py_scope.
Local Open Scope py_scope.

Definition get_case_var : M str := fun w => (Ok (case_var w), w).
Definition get_number_var : M str := fun w => (Ok (number_var w), w).

Definition levelname (lvl : log_level) : str :=
  match lvl with
  | DEBUG => lit "DEBUG"
  | INFO => lit "INFO"
  | WARNING => lit "WARNING"
  | ERROR => lit "ERROR"
  | CRITICAL => lit "CRITICAL"
  end.

(** [TextHandler.format(record)], with the formatter that [setup_log_window]
    gives the handler: ["%(asctime)s - %(levelname)s - %(message)s"]. *)
Definition TextHandler_format (time : str) (lvl : log_level) (msg : str) : str :=
  time ++ lit " - " ++ levelname lvl ++ lit " - " ++ msg.

(** [TextHandler.emit(record)]: the formatted record and a newline go to the
    end of the log window. *)
Definition TextHandler_emit (time : str) (lvl : log_level) (msg : str)
    (text_widget : list str) : list str :=
  text_widget ++ [TextHandler_format time lvl msg ++ [10%N]].

(** [LOGGER.info(msg)], [LOGGER.warning(msg)]: the record is handed to the
    logger, whose level lets everything through, and its [TextHandler]
    writes it in the log window. *)
Definition LOGGER_log (lvl : log_level) (msg : str) : M unit := fun w =>
  (Ok tt, mkWorld (rand_tape w) (rand_pos w) (case_var w) (number_var w)
                  (tree w)
                  (TextHandler_emit (asctime w (List.length (LOGGER w))) lvl msg
                     (log_output w))
                  (LOGGER w ++ [(lvl, msg)]) (asctime w)).

Definition log_output_insert (text : str) : M unit := fun w =>
  (Ok tt, mkWorld (rand_tape w) (rand_pos w) (case_var w) (number_var w)
                  (tree w) (log_output w ++ [text]) (LOGGER w) (asctime w)).

Definition tree_clear : M unit := fun w =>
  (Ok tt, mkWorld (rand_tape w) (rand_pos w) (case_var w) (number_var w)
                  [] (log_output w) (LOGGER w) (asctime w)).

Definition tree_insert (row : str * str) : M unit := fun w =>
  (Ok tt, mkWorld (rand_tape w) (rand_pos w) (case_var w) (number_var w)
                  (tree w ++ [row]) (log_output w) (LOGGER w) (asctime w)).

(** ** The random module *)

(** The draw the generator is about to hand out. *)
Definition next_draw (w : World) : N := rand_tape w (rand_pos w).

(** A number in [0, n), for [n > 0]; consumes one draw. *)
Definition randbelow (n : Z) : M Z := fun w =>
  (Ok (Z.of_N (next_draw w) mod n),
   mkWorld (rand_tape w) (S (rand_pos w)) (case_var w) (number_var w)
           (tree w) (log_output w) (LOGGER w) (asctime w)).

(** [random.randint(a, b)]: a number in [a, b]. *)
Definition randint (a b : Z) : M Z :=
  if b <? a then raise (ValueError "empty range for randrange()")
  else r <- randbelow (b - a + 1);; ret (a + r).

(** [random.choice(seq)] *)
Definition choice {A} (seq : list A) : M A :=
  if len seq =? 0 then raise (IndexError "Cannot choose from an empty sequence")
  else
    i <- randbelow (len seq);;
    match nth_error seq (Z.to_nat i) with
    | Some x => ret x
    | None => raise (IndexError "list index out of range")
    end.

(** ** The WordNet corpus *)

Module WordNet.

Record Lemma_ := { name : str }.

(** [synset.lemmas(lang=...)] gives the lemmas of a language, or raises; what
    the reader raises is a subclass of [Exception], which the handler of
    [get_words] catches. *)
Record Synset := { lemmas : str -> result (list Lemma_) }.

(** What iterating a generator produces: items, until it stops or raises. *)
Inductive generator (A : Type) : Type :=
| Stop
| Yield (a : A) (rest : generator A)
| Throw (e : exception).
Arguments Stop {A}.
Arguments Yield {A} a rest.
Arguments Throw {A} e.

Record CorpusReader := { all_synsets : generator Synset }.

End WordNet.

(** ** UsernameGenerator *)

Module UsernameGenerator.
Import WordNet.

(** A dict literal, in insertion order. *)
Definition dict (K V : Type) := list (K * V).

Fixpoint dict_lookup {V} (d : dict str V) (key : str) : option V :=
  match d with
  | [] => None
  | (k, v) :: d' => if str_eqb k key then Some v else dict_lookup d' key
  end.

(** [d.get(key, default)] *)
Definition dict_get {V} (d : dict str V) (key : str) (default : V) : V :=
  match dict_lookup d key with
  | Some v => v
  | None => default
  end.

Definition keys {K V} (d : dict K V) : list K := List.map fst d.

Definition language_names : dict str str :=
  [ (lit "eng", lit "English");
    (lit "spa", lit "Spanish");
    (lit "fra", lit "French");
    (lit "ita", lit "Italian");
    (lit "por", lit "Portuguese");
    (lit "nld", lit "Dutch");
    (lit "pol", lit "Polish");
    (lit "swe", lit "Swedish");
    (lit "fin", lit "Finnish");
    (lit "nno", lit "Norwegian Nynorsk");
    (lit "nob", lit "Norwegian Bokm" ++ [195%N; 165%N] ++ lit "l");
    (lit "ron", lit "Romanian");
    (lit "slk", lit "Slovak");
    (lit "slv", lit "Slovenian");
    (lit "zsm", lit "Malay");
    (lit "eus", lit "Basque");
    (lit "cat", lit "Catalan");
    (lit "dan", lit "Danish");
    (lit "lit", lit "Lithuanian") ].

Definition language_codes : list str := keys language_names.

(** [is_valid_word(word, min_len=3)] *)
Definition is_valid_word (word : str) (min_len : Z) : bool :=
  forallb (fun c => ord c <? 128) word && (len word >=? min_len).

Definition default_min_len : Z := 3.

(** [usernames.sort(key=...)]: a stable sort that compares keys with [<]. *)
Fixpoint insert_by {A} (key : A -> str) (x : A) (l : list A) : list A :=
  match l with
  | [] => [x]
  | y :: l' => if str_ltb (key y) (key x) then y :: insert_by key x l'
               else x :: y :: l'
  end.

Definition sort_by {A} (key : A -> str) (l : list A) : list A :=
  fold_right (insert_by key) [] l.

Definition range (n : Z) : list Z := List.map Z.of_nat (seq 0 (Z.to_nat n)).

Definition newline : str := [10%N].

Section Methods.
Variable ucd : UnicodeData.
Variable wordnet : CorpusReader.

(** The inner loop of [get_words]: the alphanumeric lemma names are
    appended to [words]. *)
Fixpoint append_lemma_names (ls : list Lemma_) (words : list str) : list str :=
  match ls with
  | [] => words
  | lemma :: ls' =>
      let word := name lemma in
      append_lemma_names ls'
        (if str_isalnum ucd word then words ++ [word] else words)
  end.

(** The body of the [try]: the words gathered, and the exception that
    stopped the iteration, if one did. *)
Fixpoint scan_synsets (synsets : generator Synset) (lang_code : str)
    (words : list str) : list str * option exception :=
  match synsets with
  | Stop => (words, None)
  | Throw exc => (words, Some exc)
  | Yield synset rest =>
      match lemmas synset lang_code with
      | Raise exc => (words, Some exc)
      | Ok ls => scan_synsets rest lang_code (append_lemma_names ls words)
      end
  end.

Definition get_words (lang_code : str) : M (list str) :=
  match scan_synsets (all_synsets wordnet) lang_code [] with
  | (words, Some exc) =>
      LOGGER_log WARNING
        (lit "Failed to fetch words for '" ++ lang_code ++ lit "': "
           ++ exc_str exc);;
      ret words
  | (words, None) => ret words
  end.

Definition finalize_username (word : str) : M str :=
  case <- get_case_var;;
  let word :=
    if str_eqb case (lit "lowercase") then str_lower ucd word
    else if str_eqb case (lit "uppercase") then str_upper ucd word
    else if str_eqb case (lit "capitalize") then str_capitalize ucd word
    else word in
  style <- get_number_var;;
  if str_eqb style (lit "1digit") then
    n <- randint 0 9;; ret (word ++ int_to_str n)
  else if str_eqb style (lit "2digit") then
    n <- randint 0 99;; ret (word ++ format_0d 2 n)
  else if str_eqb style (lit "3digit") then
    n <- randint 0 999;; ret (word ++ format_0d 3 n)
  else ret word.

Definition generate_ascii_username (lang_code : str) : M str :=
  words <- get_words lang_code;;
  let valid_words := filter (fun word => is_valid_word word default_min_len) words in
  word <- choice valid_words;;
  finalize_username word.

(** The [for i in range(total)] loop of [generate_usernames]. *)
Fixpoint generation_loop (indices : list Z) (total : Z)
    (usernames : list (str * str)) : M (list (str * str)) :=
  match indices with
  | [] => ret usernames
  | i :: indices' =>
      let message := lit "Generating username " ++ int_to_str (i + 1)
                       ++ lit "/" ++ int_to_str total ++ lit "..." in
      LOGGER_log INFO message;;
      log_output_insert (message ++ newline);;
      lang_code <- choice language_codes;;
      username <- generate_ascii_username lang_code;;
      generation_loop indices' total
        (usernames ++ [(username, dict_get language_names lang_code lang_code)])
  end.

Fixpoint tree_insert_all (rows : list (str * str)) : M unit :=
  match rows with
  | [] => ret tt
  | row :: rows' => tree_insert row;; tree_insert_all rows'
  end.

(** [generate_usernames] returns nothing: the batch is what it leaves in
    [tree]. *)
Definition generate_usernames : M unit :=
  LOGGER_log INFO (lit "Starting username generation...");;
  log_output_insert (lit "Generating usernames..." ++ newline);;
  tree_clear;;
  let total := 40 in
  usernames <- generation_loop (range total) total [];;
  let usernames := sort_by fst usernames in
  tree_insert_all usernames;;
  LOGGER_log INFO (lit "Username generation completed successfully.");;
  log_output_insert (lit "Username generation completed successfully." ++ newline).

(** The words [get_words] returns, and those that pass the filter. *)
Definition candidate_words (lang_code : str) : list str :=
  fst (scan_synsets (all_synsets wordnet) lang_code []).

Definition valid_words (lang_code : str) : list str :=
  filter (fun word => is_valid_word word default_min_len)
         (candidate_words lang_code).
End Methods.

End UsernameGenerator.
Import WordNet UsernameGenerator.

(** ** Vocabulary of the statements *)

(** The state after one draw of the generator. *)
Definition advance (w : World) : World :=
  mkWorld (rand_tape w) (S (rand_pos w)) (case_var w) (number_var w)
          (tree w) (log_output w) (LOGGER w) (asctime w).

(** The word after the first [if] chain of [finalize_username]. *)
Definition case_transform (ucd : UnicodeData) (case word : str) : str :=
  if str_eqb case (lit "lowercase") then str_lower ucd word
  else if str_eqb case (lit "uppercase") then str_upper ucd word
  else if str_eqb case (lit "capitalize") then str_capitalize ucd word
  else word.

(** [w'] is [w] but for draws consumed: at most one of them. *)
Definition only_draws (w w' : World) : Prop :=
  rand_tape w' = rand_tape w /\
  (rand_pos w' = rand_pos w \/ rand_pos w' = S (rand_pos w)) /\
  case_var w' = case_var w /\ number_var w' = number_var w /\
  tree w' = tree w /\ log_output w' = log_output w /\ LOGGER w' = LOGGER w.

(** [x] may come before [y] in a list sorted by [key]. *)
Definition key_le {A} (key : A -> str) (x y : A) : Prop :=
  str_le (key x) (key y).

(** The rows are in non-decreasing order of the username. *)
Definition rows_sorted (rows : list (str * str)) : Prop :=
  StronglySorted (key_le fst) rows.

Definition has_dict_key (d : dict str str) (key : str) : bool :=
  match dict_lookup d key with
  | Some _ => true
  | None => false
  end.

(** The language the next draw selects. *)
Definition first_language (w : World) : str :=
  match fst (choice language_codes w) with
  | Ok lang_code => lang_code
  | Raise _ => []
  end.

(** A computation that leaves the result table as it found it. *)
Definition tree_kept {A} (m : M A) : Prop :=
  forall w, tree (snd (m w)) = tree w.

(** The state in which the loop of [generate_usernames] starts: two lines
    logged, the table cleared. *)
Definition batch_start (w : World) : World :=
  snd (tree_clear
         (snd (log_output_insert (lit "Generating usernames..." ++ newline)
                 (snd (LOGGER_log INFO (lit "Starting username generation...") w))))).

Definition has_valid_words (ucd : UnicodeData) (wordnet : CorpusReader)
    (lang_code : str) : Prop :=
  valid_words ucd wordnet lang_code <> [].

Definition empty_choice : exception :=
  IndexError "Cannot choose from an empty sequence".

(** ** Sample corpora and states *)

Module Samples.

(** A clock that stands still. *)
Definition noon : nat -> str := fun _ => lit "2024-01-01 12:00:00,000".

(** Tables that leave every character outside ASCII as it is. *)
Definition plain_ucd : UnicodeData :=
  {| lower_ucs4 := fun _ _ c => [c];
     to_upper_full := fun c => [c];
     to_title_full := fun c => [c];
     unicode_isalnum := fun _ => false |}.

(** A synset with the given lemma names per language. *)
Definition synset_of (entries : dict str (list str)) : Synset :=
  {| lemmas := fun lang_code =>
       Ok (List.map Build_Lemma_ (dict_get entries lang_code [])) |}.

(** A corpus without synsets: no language has a word. *)
Definition empty_corpus : CorpusReader := {| all_synsets := Stop |}.

(** Words for English only. *)
Definition english_corpus : CorpusReader :=
  {| all_synsets :=
       Yield (synset_of [(lit "eng", [lit "cat"; lit "ox"; lit "ice_cream"])])
         (Yield (synset_of [(lit "eng", [lit "wolf"])]) Stop) |}.

(** The same word in every language. *)
Definition shared_corpus : CorpusReader :=
  {| all_synsets :=
       Yield {| lemmas := fun _ => Ok [Build_Lemma_ (lit "Taxi")] |} Stop |}.

(** English words are there, the look-up of any other language raises. *)
Definition broken_corpus : CorpusReader :=
  {| all_synsets :=
       Yield {| lemmas := fun lang_code =>
                  if str_eqb lang_code (lit "eng")
                  then Ok [Build_Lemma_ (lit "cat"); Build_Lemma_ (lit "wolf")]
                  else Raise (mkException "WordNetError"
                                (lit "Language is not supported.")) |}
         Stop |}.

(** A state whose first draw is 1 and whose later draws are 0: Spanish
    first, English ever after. *)
Definition retry_world : World :=
  mkWorld (fun i => match i with O => 1%N | S _ => 0%N end) 0
          (lit "lowercase") (lit "none") [] [] [] noon.

(** A state whose generator hands out [draw] every time. *)
Definition world_of (draw : N) (case number : string) : World :=
  mkWorld (fun _ => draw) 0 (lit case) (lit number) [] [] [] noon.

(** Another state with the same styles and the same next draw: later draws,
    the table and the logs differ. *)
Definition busy_world (draw : N) (case number : string) : World :=
  mkWorld (fun i => (draw + 1000 * N.of_nat i)%N) 0 (lit case) (lit number)
          [(lit "old", lit "English")] [lit "earlier text"]
          [(INFO, lit "earlier record")] noon.

End Samples.

(** ** Vocabulary of the further statements *)

(** The items a generator yields before it stops or raises. *)
Fixpoint yielded {A} (g : generator A) : list A :=
  match g with
  | Stop => []
  | Yield a rest => a :: yielded rest
  | Throw _ => []
  end.

(** The alphanumeric lemma names of the synsets, in order, up to the first
    look-up that raises. *)
Fixpoint names_until_failure (ucd : UnicodeData) (lang_code : str)
    (synsets : list Synset) : list str :=
  match synsets with
  | [] => []
  | synset :: rest =>
      match lemmas synset lang_code with
      | Ok ls => filter (str_isalnum ucd) (List.map name ls)
                   ++ names_until_failure ucd lang_code rest
      | Raise _ => []
      end
  end.

(** The number of digits a number style appends. *)
Definition suffix_width (number : str) : nat :=
  if str_eqb number (lit "1digit") then 1
  else if str_eqb number (lit "2digit") then 2
  else if str_eqb number (lit "3digit") then 3
  else 0.

(** The draws one username costs: the language, the word, and the number
    when there is one. *)
Definition draws_per_username (number : str) : nat :=
  match suffix_width number with
  | O => 2
  | S _ => 3
  end.

(** [username] is a valid word of the language, case-transformed, followed
    by as many decimal digits as the number style wants. *)
Definition formatted_from (ucd : UnicodeData) (wordnet : CorpusReader)
    (case number lang_code username : str) : Prop :=
  exists word suffix,
    In word (valid_words ucd wordnet lang_code) /\
    username = case_transform ucd case word ++ suffix /\
    List.length suffix = suffix_width number /\
    Forall (fun c => is_ascii_digit c = true) suffix.

(** A row of the table: a username formatted from a word of some language,
    beside the display name of that language. *)
Definition row_from_corpus (ucd : UnicodeData) (wordnet : CorpusReader)
    (case number : str) (row : str * str) : Prop :=
  exists lang_code,
    In (lang_code, snd row) language_names /\
    formatted_from ucd wordnet case number lang_code (fst row).

(** [w'] has the generator's stream, the styles and the table of [w]. *)
Definition same_settings (w w' : World) : Prop :=
  rand_tape w' = rand_tape w /\ case_var w' = case_var w /\
  number_var w' = number_var w /\ tree w' = tree w.

(** The line the loop writes in the log window before draw [i]. *)
Definition progress_message (total i : Z) : str :=
  lit "Generating username " ++ int_to_str (i + 1)
    ++ lit "/" ++ int_to_str total ++ lit "...".

Definition progress_line (total i : Z) : str :=
  progress_message total i ++ newline.

Definition is_warning (record : log_level * str) : bool :=
  match fst record with
  | WARNING => true
  | _ => false
  end.

(** Two states with the same draws to come, the same styles and the same
    table: they may differ in the log window and the logger. *)
Definition agree (w1 w2 : World) : Prop :=
  (forall i, rand_tape w1 i = rand_tape w2 i) /\ rand_pos w1 = rand_pos w2 /\
  case_var w1 = case_var w2 /\ number_var w1 = number_var w2 /\
  tree w1 = tree w2.

(** A computation whose result, draws and table depend on nothing else. *)
Definition respects_agree {A} (m : M A) : Prop :=
  forall w1 w2, agree w1 w2 ->
    fst (m w1) = fst (m w2) /\ agree (snd (m w1)) (snd (m w2)).

(** A state with rows, text and records of an earlier batch. *)
Definition used_world (draw : N) (case number : string) : World :=
  mkWorld (fun _ => draw) 0 (lit case) (lit number)
          [(lit "zebra", lit "English"); (lit "alce", lit "Italian")]
          [lit "earlier text"] [(WARNING, lit "earlier record")] Samples.noon.

Definition is_info (record : log_level * str) : bool :=
  match fst record with
  | INFO => true
  | _ => false
  end.

(** From [w] to [w'] the logger has received the records [recs], and the log
    window one line for each of them, from its handler, and [own] lines
    more; the clock is the same. *)
Definition log_growth (own : nat) (recs : list (log_level * str))
    (w w' : World) : Prop :=
  asctime w' = asctime w /\
  LOGGER w' = LOGGER w ++ recs /\
  List.length (log_output w') =
    (List.length (log_output w) + List.length recs + own)%nat.

(** The languages that [random.choice(self.language_codes)] returns in the
    rounds of the loop, in order, up to the round in which the loop ends. *)
Fixpoint loop_languages (ucd : UnicodeData) (wordnet : CorpusReader)
    (indices : list Z) (total : Z) (w : World) : list str :=
  match indices with
  | [] => []
  | i :: indices' =>
      let message := progress_message total i in
      let w1 := snd (log_output_insert (message ++ newline)
                       (snd (LOGGER_log INFO message w))) in
      match choice language_codes w1 with
      | (Ok lang_code, w2) =>
          lang_code ::
            match generate_ascii_username ucd wordnet lang_code w2 with
            | (Ok _, w3) => loop_languages ucd wordnet indices' total w3
            | (Raise _, _) => []
            end
      | (Raise _, _) => []
      end
  end.

(** The languages chosen in a batch that starts in [w]. *)
Definition languages_drawn (ucd : UnicodeData) (wordnet : CorpusReader)
    (w : World) : list str :=
  loop_languages ucd wordnet (range 40) 40 (batch_start w).

(** [c'] is [c] in lower case, for ASCII: a capital letter moves 32 up, any
    other character stays. *)
Definition lowered (c c' : char) : Prop :=
  ((65 <= c <= 90)%N /\ c' = (c + 32)%N) \/ (~ (65 <= c <= 90)%N /\ c' = c).

(** [c'] is [c] in upper case, for ASCII: a small letter moves 32 down, any
    other character stays. *)
Definition uppered (c c' : char) : Prop :=
  ((97 <= c <= 122)%N /\ c' = (c - 32)%N) \/ (~ (97 <= c <= 122)%N /\ c' = c).

(** First character in upper case, the others in lower case. *)
Definition capitalized (word username : str) : Prop :=
  match word, username with
  | [], [] => True
  | c :: rest, c' :: rest' => uppered c c' /\ Forall2 lowered rest rest'
  | _, _ => False
  end.

(** The entries of the Unicode character database for the letter DZ with
    caron, which has three cases: U+01C4 upper, U+01C5 title, U+01C6 lower.
    Other characters outside ASCII are left as they are. *)
Definition dz_ucd : UnicodeData :=
  {| lower_ucs4 := fun _ _ c =>
       if (c =? 452)%N || (c =? 453)%N then [454%N] else [c];
     to_upper_full := fun c =>
       if (c =? 453)%N || (c =? 454)%N then [452%N] else [c];
     to_title_full := fun c =>
       if (c =? 452)%N || (c =? 454)%N then [453%N] else [c];
     unicode_isalnum := fun c => (452 <=? c)%N && (c <=? 454)%N |}.

(** A state whose first seven draws are 0 0 0 0 0 0 1: three usernames from
    English, then Spanish chosen for the fourth. *)
Definition fourth_draw_world : World :=
  mkWorld (fun i => if (i <? 6)%nat then 0%N else 1%N) 0
          (lit "lowercase") (lit "none") [] [] [] Samples.noon.

(** ** NLTK data *)

Module NltkData.

(** What [ensure_nltk_data] works on: [nltk.data.path], the files on disk,
    the calls of [nltk.download] made so far and the records handed to
    [LOGGER]. *)
Record State (FS : Type) := mkState {
  data_path : list str;
  files : FS;
  download_calls : list (str * str);
  records : list (log_level * str)
}.
Arguments mkState {FS} _ _ _ _.
Arguments data_path {FS} _.
Arguments files {FS} _.
Arguments download_calls {FS} _.
Arguments records {FS} _.

Definition resources : dict str str :=
  [ (lit "wordnet", lit "corpora/wordnet");
    (lit "omw-1.4", lit "corpora/omw-1.4") ].

(** [x in l] *)
Definition str_in (x : str) (l : list str) : bool := existsb (str_eqb x) l.

Section EnsureNltkData.
Variable FS : Type.
(** [nltk.data.find(path)] searches the directories of [nltk.data.path];
    [false] stands for its [LookupError]. *)
Variable find : FS -> list str -> str -> bool.
(** [nltk.download(resource, download_dir=...)], as it changes the disk. *)
Variable download : FS -> str -> str -> FS.
(** [os.path.join(os.path.expanduser("~"), "nltk_data")] *)
Variable nltk_data_path : str.

Definition register_path (s : State FS) : State FS :=
  if str_in nltk_data_path (data_path s) then s
  else mkState (data_path s ++ [nltk_data_path]) (files s) (download_calls s)
         (records s ++ [(INFO, lit "Added NLTK data path: " ++ nltk_data_path)]).

(** One turn of the loop over [resources.items()]. *)
Definition ensure_resource (s : State FS) (entry : str * str) : State FS :=
  let (resource, path) := entry in
  if find (files s) (data_path s) path then
    mkState (data_path s) (files s) (download_calls s)
      (records s ++ [(INFO, lit "Resource '" ++ resource
                              ++ lit "' already downloaded.")])
  else
    mkState (data_path s) (download (files s) resource nltk_data_path)
      (download_calls s ++ [(resource, nltk_data_path)])
      (records s ++ [(INFO, lit "Downloading missing resource: " ++ resource)]).

Definition ensure_nltk_data (s : State FS) : State FS :=
  fold_left ensure_resource resources (register_path s).
End EnsureNltkData.

End NltkData.

(** * Properties *)

(** ** Strings *)

Lemma str_eqb_eq (a b : str) : str_eqb a b = true <-> a = b.
Proof.
  revert b; induction a as [|x a IH]; intros [|y b]; simpl; split;
    try congruence; try reflexivity.
  - intros H. apply andb_true_iff in H as [Hx Hab].
    apply N.eqb_eq in Hx. apply IH in Hab. congruence.
  - intros H. injection H as -> ->. apply andb_true_iff; split.
    + apply N.eqb_refl.
    + now apply IH.
Qed.

Lemma str_eqb_refl (a : str) : str_eqb a a = true.
Proof. now apply str_eqb_eq. Qed.

Lemma str_eqb_neq (a b : str) : str_eqb a b = false <-> a <> b.
Proof.
  split.
  - intros H E. apply str_eqb_eq in E. congruence.
  - intros H. destruct (str_eqb a b) eqn:E; [|reflexivity].
    apply str_eqb_eq in E. contradiction.
Qed.

Lemma str_ltb_irrefl (a : str) : str_ltb a a = false.
Proof.
  induction a as [|x a IH]; simpl; [reflexivity|].
  now rewrite N.ltb_irrefl.
Qed.

(** [<=] on strings is transitive: what keeps an insertion in order. *)
Lemma str_le_trans (a b c : str) : str_le a b -> str_le b c -> str_le a c.
Proof.
  unfold str_le. revert b c.
  induction a as [|x a IH]; intros [|y b] [|z c]; simpl; try congruence.
  destruct (N.ltb_spec y x), (N.ltb_spec x y), (N.ltb_spec z y),
    (N.ltb_spec y z), (N.ltb_spec z x), (N.ltb_spec x z);
    try congruence; try lia; eauto.
Qed.

Lemma str_ltb_le (a b : str) : str_ltb a b = true -> str_le a b.
Proof.
  unfold str_le. revert b.
  induction a as [|x a IH]; intros [|y b]; simpl; try congruence.
  destruct (N.ltb_spec x y), (N.ltb_spec y x); try congruence; try lia; eauto.
Qed.

Lemma is_ascii_forall (s : str) :
  is_ascii s = true <-> forall c, In c s -> ord c < 128.
Proof.
  unfold is_ascii. rewrite forallb_forall. unfold is_ascii_char.
  split; intros H c Hc; specialize (H c Hc); now apply Z.ltb_lt.
Qed.

Lemma is_ascii_app (a b : str) : is_ascii (a ++ b) = is_ascii a && is_ascii b.
Proof. unfold is_ascii. apply forallb_app. Qed.

Lemma ascii_lower_is_ascii (c : char) :
  is_ascii_char c = true -> is_ascii_char (ascii_lower c) = true.
Proof.
  unfold is_ascii_char, ascii_lower, is_ascii_upper, ord.
  intros H. apply Z.ltb_lt in H.
  destruct (65 <=? c)%N eqn:E1; destruct (c <=? 90)%N eqn:E2; simpl;
    apply Z.ltb_lt; try lia.
  apply N.leb_le in E2. lia.
Qed.

Lemma ascii_upper_is_ascii (c : char) :
  is_ascii_char c = true -> is_ascii_char (ascii_upper c) = true.
Proof.
  unfold is_ascii_char, ascii_upper, is_ascii_lower, ord.
  intros H. apply Z.ltb_lt in H.
  destruct (97 <=? c)%N eqn:E1; destruct (c <=? 122)%N eqn:E2; simpl;
    apply Z.ltb_lt; lia.
Qed.

Section CaseMappingFacts.
Variable ucd : UnicodeData.

(** On an ASCII string the three case methods work character by character
    and never look at the Unicode tables. *)
Lemma lower_from_ascii (data : str) (i : nat) (s : str) :
  is_ascii s = true -> lower_from ucd data i s = List.map ascii_lower s.
Proof.
  revert i. induction s as [|c s IH]; intros i H; simpl in *; [reflexivity|].
  apply andb_true_iff in H as [Hc Hs].
  unfold lower_char. rewrite Hc. simpl. now rewrite IH.
Qed.

Lemma str_lower_ascii (s : str) :
  is_ascii s = true -> str_lower ucd s = List.map ascii_lower s.
Proof. apply lower_from_ascii. Qed.

Lemma str_upper_ascii (s : str) :
  is_ascii s = true -> str_upper ucd s = List.map ascii_upper s.
Proof.
  unfold str_upper. induction s as [|c s IH]; intros H; simpl in *; [reflexivity|].
  apply andb_true_iff in H as [Hc Hs].
  rewrite (IH Hs). unfold upper_char. now rewrite Hc.
Qed.

Lemma str_capitalize_ascii (c : char) (s : str) :
  is_ascii (c :: s) = true ->
  str_capitalize ucd (c :: s) = ascii_upper c :: List.map ascii_lower s.
Proof.
  intros H. simpl in *. apply andb_true_iff in H as [Hc Hs].
  unfold title_char. rewrite Hc. simpl. now rewrite lower_from_ascii.
Qed.

Lemma map_ascii_lower_is_ascii (s : str) :
  is_ascii s = true -> is_ascii (List.map ascii_lower s) = true.
Proof.
  induction s as [|c s IH]; simpl; [reflexivity|]. intros H.
  apply andb_true_iff in H as [Hc Hs].
  now rewrite ascii_lower_is_ascii, IH.
Qed.

Lemma map_ascii_upper_is_ascii (s : str) :
  is_ascii s = true -> is_ascii (List.map ascii_upper s) = true.
Proof.
  induction s as [|c s IH]; simpl; [reflexivity|]. intros H.
  apply andb_true_iff in H as [Hc Hs].
  now rewrite ascii_upper_is_ascii, IH.
Qed.

Lemma str_isalnum_forall (s : str) :
  str_isalnum ucd s = true ->
  s <> [] /\ forall c, In c s -> isalnum_char ucd c = true.
Proof.
  destruct s as [|c s]; [discriminate|]. intros H. split; [discriminate|].
  now apply forallb_forall.
Qed.
End CaseMappingFacts.

(** An ASCII character that is alphanumeric is a letter or a digit: none of
    the punctuation of the ASCII range. *)
Lemma is_ascii_alnum_range (c : char) :
  is_ascii_alnum c = true ->
  (65 <= c <= 90)%N \/ (97 <= c <= 122)%N \/ (48 <= c <= 57)%N.
Proof.
  unfold is_ascii_alnum, is_ascii_upper, is_ascii_lower, is_ascii_digit.
  intros H. apply orb_true_iff in H as [H|H]; [apply orb_true_iff in H as [H|H]|];
    apply andb_true_iff in H as [H1 H2];
    apply N.leb_le in H1; apply N.leb_le in H2; lia.
Qed.

(** ** Decimal digits *)

Lemma range_In (n k : Z) : 0 <= k < n -> In k (range n).
Proof.
  intros H. unfold range. apply in_map_iff. exists (Z.to_nat k). split; [lia|].
  apply in_seq. lia.
Qed.

Lemma In_range (n k : Z) : In k (range n) -> 0 <= k < n.
Proof.
  unfold range. intros H. apply in_map_iff in H as (i & <- & Hi).
  apply in_seq in Hi. lia.
Qed.

Lemma int_to_str_1digit (n : Z) :
  0 <= n <= 9 -> int_to_str n = [digit_char n].
Proof.
  intros H.
  assert (C : forallb (fun k => str_eqb (int_to_str k) [digit_char k]) (range 10) = true)
    by (vm_compute; reflexivity).
  rewrite forallb_forall in C. apply str_eqb_eq, C, range_In. lia.
Qed.

Lemma format_0d_2digit (n : Z) :
  0 <= n <= 99 -> format_0d 2 n = [digit_char (n / 10); digit_char (n mod 10)].
Proof.
  intros H.
  assert (C : forallb (fun k => str_eqb (format_0d 2 k)
                         [digit_char (k / 10); digit_char (k mod 10)])
                      (range 100) = true) by (vm_compute; reflexivity).
  rewrite forallb_forall in C. apply str_eqb_eq, C, range_In. lia.
Qed.

Lemma format_0d_3digit (n : Z) :
  0 <= n <= 999 ->
  format_0d 3 n =
  [digit_char (n / 100); digit_char (n / 10 mod 10); digit_char (n mod 10)].
Proof.
  intros H.
  assert (C : forallb (fun k => str_eqb (format_0d 3 k)
                         [digit_char (k / 100); digit_char (k / 10 mod 10);
                          digit_char (k mod 10)])
                      (range 1000) = true) by (vm_compute; reflexivity).
  rewrite forallb_forall in C. apply str_eqb_eq, C, range_In. lia.
Qed.

(** A decimal digit is one of the characters ['0'..'9']. *)
Lemma digit_char_range (d : Z) :
  0 <= d <= 9 -> (48 <= digit_char d <= 57)%N.
Proof. unfold digit_char. lia. Qed.

Lemma digit_char_is_ascii (d : Z) :
  0 <= d <= 9 -> is_ascii_char (digit_char d) = true.
Proof.
  intros H. unfold is_ascii_char, ord. apply Z.ltb_lt.
  pose proof (digit_char_range d H). lia.
Qed.

(** ** Running the methods *)

Lemma randbelow_run (n : Z) (w : World) :
  randbelow n w = (Ok (Z.of_N (next_draw w) mod n), advance w).
Proof. reflexivity. Qed.

(** [random.choice] on a sequence that is not empty returns one of its
    elements and consumes one draw. *)
Lemma choice_nonempty {A} (seq : list A) (w : World) :
  seq <> [] -> exists x, In x seq /\ choice seq w = (Ok x, advance w).
Proof.
  intros Hne. unfold choice, len.
  destruct (Z.eqb_spec (Z.of_nat (List.length seq)) 0) as [E|E].
  - destruct seq; [contradiction|simpl in E; lia].
  - unfold bind. rewrite randbelow_run.
    set (i := Z.of_N (next_draw w) mod Z.of_nat (List.length seq)).
    assert (Hi : 0 <= i < Z.of_nat (List.length seq))
      by (apply Z.mod_pos_bound; lia).
    destruct (nth_error seq (Z.to_nat i)) as [x|] eqn:En.
    + exists x. split; [eapply nth_error_In; eauto|reflexivity].
    + apply nth_error_None in En. lia.
Qed.

Lemma choice_empty {A} (w : World) :
  @choice A [] w = (Raise (IndexError "Cannot choose from an empty sequence"), w).
Proof. reflexivity. Qed.

Section MethodFacts.
Variable ucd : UnicodeData.
Variable wordnet : CorpusReader.

(** [finalize_username] never raises; it consumes a draw exactly when a
    digit style is selected. *)
Lemma finalize_username_run (word : str) (w : World) :
  finalize_username ucd word w =
  let cased := case_transform ucd (case_var w) word in
  let n := Z.of_N (next_draw w) in
  if str_eqb (number_var w) (lit "1digit") then
    (Ok (cased ++ int_to_str (n mod 10)), advance w)
  else if str_eqb (number_var w) (lit "2digit") then
    (Ok (cased ++ format_0d 2 (n mod 100)), advance w)
  else if str_eqb (number_var w) (lit "3digit") then
    (Ok (cased ++ format_0d 3 (n mod 1000)), advance w)
  else (Ok cased, w).
Proof.
  unfold finalize_username, case_transform, bind, get_case_var, get_number_var.
  cbv zeta.
  destruct (str_eqb (number_var w) (lit "1digit")); [reflexivity|].
  destruct (str_eqb (number_var w) (lit "2digit")); [reflexivity|].
  destruct (str_eqb (number_var w) (lit "3digit")); reflexivity.
Qed.

(** [get_words] never raises: it returns the words gathered so far, after
    a warning when the iteration was stopped by an exception. *)
Lemma get_words_run (lang_code : str) (w : World) :
  get_words ucd wordnet lang_code w =
  (Ok (candidate_words ucd wordnet lang_code),
   match snd (scan_synsets ucd (all_synsets wordnet) lang_code []) with
   | Some exc =>
       snd (LOGGER_log WARNING
              (lit "Failed to fetch words for '" ++ lang_code ++ lit "': "
                 ++ exc_str exc) w)
   | None => w
   end).
Proof.
  unfold get_words, candidate_words.
  destruct (scan_synsets ucd (all_synsets wordnet) lang_code [])
    as [words [exc|]]; reflexivity.
Qed.

Lemma append_lemma_names_Forall (P : str -> Prop) (ls : list Lemma_)
    (words : list str) :
  (forall word, str_isalnum ucd word = true -> P word) ->
  Forall P words -> Forall P (append_lemma_names ucd ls words).
Proof.
  intros HP. revert words.
  induction ls as [|lemma ls IH]; intros words Hw; simpl; [assumption|].
  apply IH. destruct (str_isalnum ucd (name lemma)) eqn:E; [|assumption].
  apply Forall_app. split; [assumption|]. constructor; [|constructor].
  now apply HP.
Qed.

Lemma scan_synsets_Forall (P : str -> Prop) (synsets : generator Synset)
    (lang_code : str) (words : list str) :
  (forall word, str_isalnum ucd word = true -> P word) ->
  Forall P words -> Forall P (fst (scan_synsets ucd synsets lang_code words)).
Proof.
  intros HP. revert words.
  induction synsets as [|synset rest IH|exc]; intros words Hw; simpl;
    try assumption.
  destruct (lemmas synset lang_code) as [ls|exc]; [|assumption].
  apply IH. now apply append_lemma_names_Forall.
Qed.

Lemma valid_words_incl (lang_code : str) (word : str) :
  In word (valid_words ucd wordnet lang_code) ->
  In word (candidate_words ucd wordnet lang_code) /\
  is_valid_word word default_min_len = true.
Proof. unfold valid_words. intros H. now apply filter_In in H. Qed.
End MethodFacts.

(** ** The word filter *)

Lemma is_valid_word_true (word : str) (min_len : Z) :
  is_valid_word word min_len = true <->
  (forall c, In c word -> ord c < 128) /\ len word >= min_len.
Proof.
  unfold is_valid_word. rewrite andb_true_iff, forallb_forall, Z.geb_le.
  split; intros [Hc Hl]; (split; [|lia]); intros c Hin;
    specialize (Hc c Hin); now apply Z.ltb_lt.
Qed.

Lemma is_valid_word_is_ascii (word : str) (min_len : Z) :
  is_valid_word word min_len = true -> is_ascii word = true.
Proof.
  intros H. apply is_ascii_forall. now apply (is_valid_word_true word min_len).
Qed.

(** C2. [is_valid_word word min_len] is true exactly when every character of
    [word] has a code point below 128 and [word] has at least [min_len]
    characters; a character from 128 on makes it false, and so does a length
    below [min_len].  The pipeline calls it with the default, 3. *)
Theorem is_valid_word_iff (word : str) (min_len : Z) :
  (is_valid_word word min_len = true <->
   (forall c, In c word -> ord c < 128) /\ len word >= min_len) /\
  ((exists c, In c word /\ ord c >= 128) -> is_valid_word word min_len = false) /\
  (len word < min_len -> is_valid_word word min_len = false) /\
  default_min_len = 3.
Proof.
  pose proof (is_valid_word_true word min_len) as Hiff.
  split; [exact Hiff|]. split; [|split; [|reflexivity]].
  - intros (c & Hin & Hc). apply not_true_is_false. intros E.
    apply Hiff in E as [Hall _]. specialize (Hall c Hin). lia.
  - intros Hl. apply not_true_is_false. intros E.
    apply Hiff in E as [_ Hlen]. lia.
Qed.

(** ** The table of languages *)

(** C8. [language_names] has exactly 19 entries and no key twice; the
    language code drawn for a username is always one of its keys, so the
    look-up of the display name finds an entry and never falls back on the
    default. *)
Theorem language_names_table :
  List.length language_names = 19%nat /\
  NoDup (keys language_names) /\
  language_codes = keys language_names /\
  Forall (fun code => has_dict_key language_names code = true) language_codes /\
  forall w : World, exists code display_name,
    choice language_codes w = (Ok code, advance w) /\
    In code language_codes /\
    dict_lookup language_names code = Some display_name /\
    dict_get language_names code code = display_name.
Proof.
  assert (Hkeys : Forall (fun code => has_dict_key language_names code = true)
                         language_codes).
  { apply Forall_forall. apply forallb_forall. vm_compute. reflexivity. }
  split; [reflexivity|]. split; [|split; [reflexivity|split; [exact Hkeys|]]].
  - unfold keys, language_names. cbn [List.map fst].
    repeat (constructor; [cbn [In]; intuition discriminate|]). constructor.
  - intros w.
    destruct (choice_nonempty language_codes w) as (code & Hin & Hrun);
      [discriminate|].
    rewrite Forall_forall in Hkeys. specialize (Hkeys code Hin).
    unfold has_dict_key in Hkeys.
    destruct (dict_lookup language_names code) as [display_name|] eqn:E;
      [|discriminate].
    exists code, display_name. unfold dict_get. rewrite E. auto.
Qed.

(** ** The formatter *)

Lemma ascii_lower_lowered (c : char) : lowered c (ascii_lower c).
Proof.
  unfold lowered, ascii_lower, is_ascii_upper.
  destruct (N.leb_spec 65 c), (N.leb_spec c 90); simpl; [left|right..];
    split; try reflexivity; lia.
Qed.

Lemma ascii_upper_uppered (c : char) : uppered c (ascii_upper c).
Proof.
  unfold uppered, ascii_upper, is_ascii_lower.
  destruct (N.leb_spec 97 c), (N.leb_spec c 122); simpl; [left|right..];
    split; try reflexivity; lia.
Qed.

Lemma Forall2_map_right {A B} (R : A -> B -> Prop) (f : A -> B) (l : list A) :
  (forall x, R x (f x)) -> Forall2 R l (List.map f l).
Proof. intros H. induction l; simpl; constructor; auto. Qed.

(** C5, as the code has it.  With number style ["none"], [finalize_username]
    returns [word.capitalize()], [word.lower()] or [word.upper()] as the
    case style says, with nothing appended, and the word as it is for any
    other case style.  On an ASCII word (all the words the filter lets
    through) capitalizing puts the first character in upper case and the
    others in lower case, lower-casing moves every capital letter 32 up and
    upper-casing every small letter 32 down, and no other character
    changes.  Outside ASCII [word.capitalize()] puts the first character in
    title case, which need not be its upper case. *)
Theorem finalize_username_case_styles (ucd : UnicodeData) (word : str) (w : World) :
  number_var w = lit "none" ->
  (case_var w = lit "capitalize" ->
     fst (finalize_username ucd word w) = Ok (str_capitalize ucd word)) /\
  (case_var w = lit "lowercase" ->
     fst (finalize_username ucd word w) = Ok (str_lower ucd word)) /\
  (case_var w = lit "uppercase" ->
     fst (finalize_username ucd word w) = Ok (str_upper ucd word)) /\
  (case_var w <> lit "capitalize" -> case_var w <> lit "lowercase" ->
   case_var w <> lit "uppercase" ->
     fst (finalize_username ucd word w) = Ok word) /\
  (is_ascii word = true ->
     capitalized word (str_capitalize ucd word) /\
     Forall2 lowered word (str_lower ucd word) /\
     Forall2 uppered word (str_upper ucd word)).
Proof.
  intros Hnone. rewrite finalize_username_run. rewrite Hnone. cbn -[case_transform lit].
  change (str_eqb (lit "none") (lit "1digit")) with false.
  change (str_eqb (lit "none") (lit "2digit")) with false.
  change (str_eqb (lit "none") (lit "3digit")) with false.
  cbn -[case_transform lit]. unfold case_transform.
  split; [intros ->; reflexivity|]. split; [intros ->; reflexivity|].
  split; [intros ->; reflexivity|]. split.
  - intros H1 H2 H3.
    apply str_eqb_neq in H1, H2, H3. now rewrite H1, H2, H3.
  - intros Ha. rewrite str_lower_ascii, str_upper_ascii by assumption.
    split; [|split].
    + destruct word as [|c rest]; [exact I|].
      rewrite str_capitalize_ascii by assumption. split.
      * apply ascii_upper_uppered.
      * apply Forall2_map_right, ascii_lower_lowered.
    + apply Forall2_map_right, ascii_lower_lowered.
    + apply Forall2_map_right, ascii_upper_uppered.
Qed.

(** C5 as stated fails outside ASCII.  Capitalizing U+01C6 followed by
    ["ABC"] puts U+01C5, the title case, in front, while the upper case of
    U+01C6 is U+01C4. *)
Lemma finalize_username_capitalize_title_case :
  fst (finalize_username dz_ucd [454%N; 65%N; 66%N; 67%N]
         (Samples.world_of 7 "capitalize" "none"))
    = Ok [453%N; 97%N; 98%N; 99%N] /\
  str_upper dz_ucd [454%N] ++ str_lower dz_ucd [65%N; 66%N; 67%N]
    = [452%N; 97%N; 98%N; 99%N] /\
  [453%N; 97%N; 98%N; 99%N] <>
    str_upper dz_ucd [454%N] ++ str_lower dz_ucd [65%N; 66%N; 67%N].
Proof.
  split; [reflexivity|]. split; [reflexivity|]. vm_compute. discriminate.
Qed.

(** What [finalize_username] appends, style by style. *)
Lemma finalize_username_digits (ucd : UnicodeData) (word : str) (w : World) :
  let cased := case_transform ucd (case_var w) word in
  let n := Z.of_N (next_draw w) in
  (number_var w = lit "none" ->
     fst (finalize_username ucd word w) = Ok cased) /\
  (number_var w = lit "1digit" ->
     0 <= n mod 10 <= 9 /\
     fst (finalize_username ucd word w) = Ok (cased ++ [digit_char (n mod 10)])) /\
  (number_var w = lit "2digit" ->
     0 <= n mod 100 <= 99 /\
     0 <= n mod 100 / 10 <= 9 /\ 0 <= n mod 100 mod 10 <= 9 /\
     n mod 100 = 10 * (n mod 100 / 10) + n mod 100 mod 10 /\
     fst (finalize_username ucd word w) =
       Ok (cased ++ [digit_char (n mod 100 / 10); digit_char (n mod 100 mod 10)])) /\
  (number_var w = lit "3digit" ->
     0 <= n mod 1000 <= 999 /\
     0 <= n mod 1000 / 100 <= 9 /\ 0 <= n mod 1000 / 10 mod 10 <= 9 /\
     0 <= n mod 1000 mod 10 <= 9 /\
     n mod 1000 = 100 * (n mod 1000 / 100) + 10 * (n mod 1000 / 10 mod 10)
                  + n mod 1000 mod 10 /\
     fst (finalize_username ucd word w) =
       Ok (cased ++ [digit_char (n mod 1000 / 100);
                     digit_char (n mod 1000 / 10 mod 10);
                     digit_char (n mod 1000 mod 10)])).
Proof.
  intros cased n. rewrite finalize_username_run. fold cased. fold n. cbv zeta.
  pose proof (Z.mod_pos_bound n 10 ltac:(lia)) as B1.
  pose proof (Z.mod_pos_bound n 100 ltac:(lia)) as B2.
  pose proof (Z.mod_pos_bound n 1000 ltac:(lia)) as B3.
  repeat apply conj.
  - intros ->. reflexivity.
  - intros ->. split; [lia|].
    change (str_eqb (lit "1digit") (lit "1digit")) with true. cbn [fst].
    rewrite int_to_str_1digit by lia. reflexivity.
  - intros ->.
    change (str_eqb (lit "2digit") (lit "1digit")) with false.
    change (str_eqb (lit "2digit") (lit "2digit")) with true. cbn [fst].
    rewrite format_0d_2digit by lia.
    set (m := n mod 100) in *.
    pose proof (Z.div_mod m 10 ltac:(lia)) as D1.
    pose proof (Z.mod_pos_bound m 10 ltac:(lia)) as M1.
    repeat apply conj; try reflexivity; lia.
  - intros ->.
    change (str_eqb (lit "3digit") (lit "1digit")) with false.
    change (str_eqb (lit "3digit") (lit "2digit")) with false.
    change (str_eqb (lit "3digit") (lit "3digit")) with true. cbn [fst].
    rewrite format_0d_3digit by lia.
    set (m := n mod 1000) in *.
    pose proof (Z.div_mod m 10 ltac:(lia)) as D1.
    pose proof (Z.div_mod (m / 10) 10 ltac:(lia)) as D2.
    pose proof (Z.mod_pos_bound m 10 ltac:(lia)) as M1.
    pose proof (Z.mod_pos_bound (m / 10) 10 ltac:(lia)) as M2.
    assert (E : m / 100 = m / 10 / 10) by (rewrite Z.div_div by lia; reflexivity).
    repeat apply conj; try reflexivity; lia.
Qed.

(** C4. The suffix comes after the case transform and directly after the
    word: nothing for ["none"]; for ["1digit"] the one digit of a number in
    [0, 9]; for ["2digit"] the two digits of a number in [0, 99], tens first,
    so with a leading zero below 10; for ["3digit"] the three digits of a
    number in [0, 999].  The number is the generator's draw, reduced to the
    range. *)
Theorem finalize_username_number_suffix (ucd : UnicodeData) (word : str) (w : World) :
  let cased := case_transform ucd (case_var w) word in
  let n := Z.of_N (next_draw w) in
  (number_var w = lit "none" ->
     fst (finalize_username ucd word w) = Ok cased) /\
  (number_var w = lit "1digit" ->
     0 <= n mod 10 <= 9 /\
     fst (finalize_username ucd word w) = Ok (cased ++ [digit_char (n mod 10)])) /\
  (number_var w = lit "2digit" ->
     0 <= n mod 100 <= 99 /\
     0 <= n mod 100 / 10 <= 9 /\ 0 <= n mod 100 mod 10 <= 9 /\
     n mod 100 = 10 * (n mod 100 / 10) + n mod 100 mod 10 /\
     fst (finalize_username ucd word w) =
       Ok (cased ++ [digit_char (n mod 100 / 10); digit_char (n mod 100 mod 10)])) /\
  (number_var w = lit "3digit" ->
     0 <= n mod 1000 <= 999 /\
     0 <= n mod 1000 / 100 <= 9 /\ 0 <= n mod 1000 / 10 mod 10 <= 9 /\
     0 <= n mod 1000 mod 10 <= 9 /\
     n mod 1000 = 100 * (n mod 1000 / 100) + 10 * (n mod 1000 / 10 mod 10)
                  + n mod 1000 mod 10 /\
     fst (finalize_username ucd word w) =
       Ok (cased ++ [digit_char (n mod 1000 / 100);
                     digit_char (n mod 1000 / 10 mod 10);
                     digit_char (n mod 1000 mod 10)])).
Proof. exact (finalize_username_digits ucd word w). Qed.

Lemma case_transform_is_ascii (ucd : UnicodeData) (case word : str) :
  is_ascii word = true -> is_ascii (case_transform ucd case word) = true.
Proof.
  intros H. unfold case_transform.
  destruct (str_eqb case (lit "lowercase")).
  { rewrite str_lower_ascii by assumption. now apply map_ascii_lower_is_ascii. }
  destruct (str_eqb case (lit "uppercase")).
  { rewrite str_upper_ascii by assumption. now apply map_ascii_upper_is_ascii. }
  destruct (str_eqb case (lit "capitalize")); [|assumption].
  destruct word as [|c rest]; [reflexivity|].
  rewrite str_capitalize_ascii by assumption.
  simpl in *. apply andb_true_iff in H as [Hc Hrest].
  rewrite ascii_upper_is_ascii by assumption.
  now apply map_ascii_lower_is_ascii.
Qed.

(** The formatter keeps an ASCII word ASCII, whatever the styles and the draw. *)
Lemma finalize_username_is_ascii (ucd : UnicodeData) (word : str) (w : World) :
  is_ascii word = true ->
  exists username,
    fst (finalize_username ucd word w) = Ok username /\ is_ascii username = true.
Proof.
  intros H. pose proof (case_transform_is_ascii ucd (case_var w) word H) as Hc.
  destruct (finalize_username_digits ucd word w) as (_ & H1 & H2 & H3).
  rewrite finalize_username_run in *. cbv zeta in *.
  set (n := Z.of_N (next_draw w)) in *.
  destruct (str_eqb (number_var w) (lit "1digit")) eqn:E1.
  { apply str_eqb_eq in E1. destruct (H1 E1) as (B & ->).
    eexists. split; [reflexivity|].
    rewrite is_ascii_app, Hc. simpl. now rewrite digit_char_is_ascii. }
  destruct (str_eqb (number_var w) (lit "2digit")) eqn:E2.
  { apply str_eqb_eq in E2. destruct (H2 E2) as (B & B1 & B2 & _ & ->).
    eexists. split; [reflexivity|].
    rewrite is_ascii_app, Hc. simpl. now rewrite !digit_char_is_ascii. }
  destruct (str_eqb (number_var w) (lit "3digit")) eqn:E3.
  { apply str_eqb_eq in E3. destruct (H3 E3) as (B & B1 & B2 & B3 & _ & ->).
    eexists. split; [reflexivity|].
    rewrite is_ascii_app, Hc. simpl. now rewrite !digit_char_is_ascii. }
  eexists. split; [reflexivity|assumption].
Qed.

(** ** The candidate words *)

(** C10. [get_words] returns, for every language, only strings for which
    [str.isalnum] holds: they are not empty, each of their characters is
    alphanumeric, and an ASCII character among them is a letter or a digit,
    so no underscore, hyphen or space.  The same holds for the words that
    pass the filter, from which the username is drawn. *)
Theorem get_words_alnum (ucd : UnicodeData) (wordnet : CorpusReader)
    (lang_code : str) (w : World) :
  let alnum_word := fun word : str =>
    str_isalnum ucd word = true /\ word <> [] /\
    (forall c, In c word -> isalnum_char ucd c = true) /\
    (forall c, In c word -> ord c < 128 ->
       (65 <= c <= 90)%N \/ (97 <= c <= 122)%N \/ (48 <= c <= 57)%N) /\
    ~ In 95%N word /\ ~ In 45%N word /\ ~ In 32%N word in
  (exists words w', get_words ucd wordnet lang_code w = (Ok words, w') /\
                    Forall alnum_word words) /\
  Forall alnum_word (valid_words ucd wordnet lang_code).
Proof.
  intros alnum_word.
  assert (HP : forall word, str_isalnum ucd word = true -> alnum_word word).
  { intros word H. destruct (str_isalnum_forall ucd word H) as [Hne Hall].
    assert (Hascii : forall c, In c word -> ord c < 128 ->
              (65 <= c <= 90)%N \/ (97 <= c <= 122)%N \/ (48 <= c <= 57)%N).
    { intros c Hin Hc. specialize (Hall c Hin). unfold isalnum_char in Hall.
      replace (is_ascii_char c) with true in Hall
        by (symmetry; now apply Z.ltb_lt).
      now apply is_ascii_alnum_range. }
    unfold alnum_word. repeat apply conj; try assumption;
      intros Hin; apply Hascii in Hin; unfold ord; simpl; lia. }
  assert (Hcand : Forall alnum_word (candidate_words ucd wordnet lang_code)).
  { unfold candidate_words. apply scan_synsets_Forall; [exact HP|constructor]. }
  split.
  - rewrite get_words_run. eexists. eexists. split; [reflexivity|exact Hcand].
  - rewrite Forall_forall in *. intros word Hin.
    apply valid_words_incl in Hin as [Hin _]. now apply Hcand.
Qed.

(** ** One username *)

(** With a valid word to choose from, a draw produces a username: one of
    the valid words, formatted. *)
Lemma generate_ascii_username_ok (ucd : UnicodeData) (wordnet : CorpusReader)
    (lang_code : str) (w : World) :
  valid_words ucd wordnet lang_code <> [] ->
  exists word username w1 w',
    In word (valid_words ucd wordnet lang_code) /\
    finalize_username ucd word w1 = (Ok username, w') /\
    generate_ascii_username ucd wordnet lang_code w = (Ok username, w').
Proof.
  intros Hne. unfold generate_ascii_username, bind.
  rewrite get_words_run. fold (valid_words ucd wordnet lang_code).
  match goal with |- context [choice _ ?w1] => set (wa := w1) end.
  destruct (choice_nonempty (valid_words ucd wordnet lang_code) wa Hne)
    as (word & Hin & Hrun).
  rewrite Hrun.
  destruct (finalize_username ucd word (advance wa)) as [[username|e] w'] eqn:E.
  - exists word, username, (advance wa), w'. auto.
  - rewrite finalize_username_run in E. cbv zeta in E.
    repeat match type of E with
           | (if ?b then _ else _) = _ => destruct b
           end; discriminate.
Qed.

(** Without one, the draw ends in the [IndexError] of [random.choice]. *)
Lemma generate_ascii_username_empty (ucd : UnicodeData) (wordnet : CorpusReader)
    (lang_code : str) (w : World) :
  valid_words ucd wordnet lang_code = [] ->
  fst (generate_ascii_username ucd wordnet lang_code w) = Raise empty_choice.
Proof.
  intros Hempty. unfold generate_ascii_username, bind.
  rewrite get_words_run. fold (valid_words ucd wordnet lang_code).
  rewrite Hempty. reflexivity.
Qed.

(** C6. A generated username is ASCII: the formatter turns a word that
    passes the filter into a string of code points below 128, whatever the
    styles; whenever [generate_ascii_username] returns a username all its
    characters are below 128; and it does return one when the language has a
    valid word. *)
Theorem generate_ascii_username_is_ascii (ucd : UnicodeData)
    (wordnet : CorpusReader) (lang_code : str) (w : World) :
  (forall word, is_valid_word word default_min_len = true ->
     exists username, fst (finalize_username ucd word w) = Ok username /\
                      forall c, In c username -> ord c < 128) /\
  (forall username,
     fst (generate_ascii_username ucd wordnet lang_code w) = Ok username ->
     forall c, In c username -> ord c < 128) /\
  (valid_words ucd wordnet lang_code <> [] ->
     exists username,
       fst (generate_ascii_username ucd wordnet lang_code w) = Ok username).
Proof.
  repeat apply conj.
  - intros word Hvalid. apply is_valid_word_is_ascii in Hvalid.
    destruct (finalize_username_is_ascii ucd word w Hvalid) as (u & Hu & Ha).
    exists u. split; [assumption|]. now apply is_ascii_forall.
  - intros username Hrun.
    destruct (valid_words ucd wordnet lang_code) as [|v vs] eqn:Ev.
    + rewrite generate_ascii_username_empty in Hrun by assumption. discriminate.
    + destruct (generate_ascii_username_ok ucd wordnet lang_code w)
        as (word & u & w1 & w' & Hin & Hfin & Hgen);
        [rewrite Ev; discriminate|].
      rewrite Hgen in Hrun. simpl in Hrun. injection Hrun as ->.
      apply valid_words_incl in Hin as [_ Hvalid].
      apply is_valid_word_is_ascii in Hvalid.
      destruct (finalize_username_is_ascii ucd word w1 Hvalid) as (u' & Hu & Ha).
      rewrite Hfin in Hu. simpl in Hu. injection Hu as ->.
      now apply is_ascii_forall.
  - intros Hne.
    destruct (generate_ascii_username_ok ucd wordnet lang_code w Hne)
      as (word & u & w1 & w' & _ & _ & Hgen).
    exists u. now rewrite Hgen.
Qed.

(** ** Purity *)

(** C9. The filter is a function of the word and the minimum length alone.
    The formatter returns the same string in two states that agree on the
    case style, the number style and the next draw, and it changes nothing
    in the state but the count of draws consumed, by one at most. *)
Theorem filter_and_formatter_pure (ucd : UnicodeData) (word : str)
    (w1 w2 : World) :
  case_var w1 = case_var w2 ->
  number_var w1 = number_var w2 ->
  next_draw w1 = next_draw w2 ->
  fst (finalize_username ucd word w1) = fst (finalize_username ucd word w2) /\
  only_draws w1 (snd (finalize_username ucd word w1)) /\
  only_draws w2 (snd (finalize_username ucd word w2)) /\
  (forall word' min_len min_len',
     word' = word -> min_len' = min_len ->
     is_valid_word word' min_len' = is_valid_word word min_len).
Proof.
  intros Hcase Hnum Hdraw.
  assert (Hframe : forall w, only_draws w (snd (finalize_username ucd word w))).
  { intros w. rewrite finalize_username_run. cbv zeta. unfold only_draws.
    repeat match goal with
           | |- context [if ?b then _ else _] => destruct b
           end; simpl; intuition. }
  repeat apply conj; try apply Hframe.
  - rewrite !finalize_username_run. cbv zeta. rewrite Hcase, Hnum, Hdraw.
    repeat match goal with
           | |- context [if ?b then _ else _] => destruct b
           end; reflexivity.
  - intros word' min_len min_len' -> ->. reflexivity.
Qed.

(** C9, on two states that differ in the table, the logs and later draws. *)
Lemma filter_and_formatter_pure_witness :
  fst (finalize_username Samples.plain_ucd (lit "Taxi")
         (Samples.world_of 7 "uppercase" "2digit")) =
  fst (finalize_username Samples.plain_ucd (lit "Taxi")
         (Samples.busy_world 7 "uppercase" "2digit")) /\
  only_draws (Samples.world_of 7 "uppercase" "2digit")
    (snd (finalize_username Samples.plain_ucd (lit "Taxi")
            (Samples.world_of 7 "uppercase" "2digit"))) /\
  only_draws (Samples.busy_world 7 "uppercase" "2digit")
    (snd (finalize_username Samples.plain_ucd (lit "Taxi")
            (Samples.busy_world 7 "uppercase" "2digit"))) /\
  (forall word' min_len min_len',
     word' = lit "Taxi" -> min_len' = min_len ->
     is_valid_word word' min_len' = is_valid_word (lit "Taxi") min_len).
Proof.
  apply (filter_and_formatter_pure Samples.plain_ucd (lit "Taxi")
           (Samples.world_of 7 "uppercase" "2digit")
           (Samples.busy_world 7 "uppercase" "2digit"));
    reflexivity.
Defined.

(** C5, on ["Taxi"] in upper case. *)
Lemma finalize_username_case_styles_witness :
  number_var (Samples.world_of 7 "uppercase" "none") = lit "none" /\
  fst (finalize_username Samples.plain_ucd (lit "Taxi")
         (Samples.world_of 7 "uppercase" "none")) = Ok (lit "TAXI").
Proof.
  split; [reflexivity|].
  destruct (finalize_username_case_styles Samples.plain_ucd (lit "Taxi")
              (Samples.world_of 7 "uppercase" "none") eq_refl)
    as (_ & _ & Hupper & _).
  rewrite (Hupper eq_refl). reflexivity.
Defined.

(** ** What the loop leaves alone *)

Create HintDb frame.

Lemma tree_kept_ret {A} (a : A) : tree_kept (ret a).
Proof. intros w. reflexivity. Qed.

Lemma tree_kept_raise {A} (e : exception) : tree_kept (@raise A e).
Proof. intros w. reflexivity. Qed.

Lemma tree_kept_bind {A B} (m : M A) (k : A -> M B) :
  tree_kept m -> (forall a, tree_kept (k a)) -> tree_kept (bind m k).
Proof.
  intros Hm Hk w. unfold bind. specialize (Hm w).
  destruct (m w) as [[a|e] w1]; simpl in *; [|assumption].
  now rewrite Hk.
Qed.

Lemma tree_kept_LOGGER_log (lvl : log_level) (msg : str) :
  tree_kept (LOGGER_log lvl msg).
Proof. intros w. reflexivity. Qed.

Lemma tree_kept_log_output_insert (text : str) :
  tree_kept (log_output_insert text).
Proof. intros w. reflexivity. Qed.

Lemma tree_kept_get_case_var : tree_kept get_case_var.
Proof. intros w. reflexivity. Qed.

Lemma tree_kept_get_number_var : tree_kept get_number_var.
Proof. intros w. reflexivity. Qed.

Lemma tree_kept_randbelow (n : Z) : tree_kept (randbelow n).
Proof. intros w. reflexivity. Qed.

#[local] Hint Resolve tree_kept_ret tree_kept_raise tree_kept_LOGGER_log
  tree_kept_log_output_insert tree_kept_get_case_var tree_kept_get_number_var
  tree_kept_randbelow : frame.

Ltac frame_step :=
  repeat first
    [ apply tree_kept_bind; [|intros ?]
    | solve [auto with frame]
    | match goal with
      | |- tree_kept (if ?b then _ else _) => destruct b
      | |- tree_kept (match ?x with _ => _ end) => destruct x
      end ].

Lemma tree_kept_randint (a b : Z) : tree_kept (randint a b).
Proof. unfold randint. frame_step. Qed.

Lemma tree_kept_choice {A} (seq : list A) : tree_kept (choice seq).
Proof. unfold choice. frame_step. Qed.

#[local] Hint Resolve tree_kept_randint tree_kept_choice : frame.

Section Frames.
Variable ucd : UnicodeData.
Variable wordnet : CorpusReader.

Lemma tree_kept_get_words (lang_code : str) :
  tree_kept (get_words ucd wordnet lang_code).
Proof. unfold get_words. frame_step. Qed.

Lemma tree_kept_finalize_username (word : str) :
  tree_kept (finalize_username ucd word).
Proof. unfold finalize_username. frame_step. Qed.

Hint Resolve tree_kept_get_words tree_kept_finalize_username : frame.

Lemma tree_kept_generate_ascii_username (lang_code : str) :
  tree_kept (generate_ascii_username ucd wordnet lang_code).
Proof. unfold generate_ascii_username. frame_step. Qed.

Hint Resolve tree_kept_generate_ascii_username : frame.

Lemma tree_kept_generation_loop (indices : list Z) (total : Z)
    (usernames : list (str * str)) :
  tree_kept (generation_loop ucd wordnet indices total usernames).
Proof.
  revert usernames. induction indices as [|i indices IH]; intros usernames;
    simpl; frame_step.
Qed.
End Frames.

(** The element [random.choice] returns depends on the next draw alone. *)
Lemma choice_next_draw {A} (seq : list A) (w w' : World) :
  next_draw w' = next_draw w -> fst (choice seq w') = fst (choice seq w).
Proof.
  intros H. unfold choice, bind. destruct (len seq =? 0); [reflexivity|].
  rewrite !randbelow_run, H.
  destruct (nth_error seq _); reflexivity.
Qed.

Lemma tree_insert_all_run (rows : list (str * str)) (w : World) :
  tree_insert_all rows w =
  (Ok tt, mkWorld (rand_tape w) (rand_pos w) (case_var w) (number_var w)
                  (tree w ++ rows) (log_output w) (LOGGER w) (asctime w)).
Proof.
  revert w. induction rows as [|row rows IH]; intros w; simpl.
  - unfold ret. rewrite app_nil_r. now destruct w.
  - unfold bind, tree_insert. rewrite IH. simpl. now rewrite <- app_assoc.
Qed.

(** ** Sorting *)

Section Sorting.
Context {A : Type} (key : A -> str).

Lemma insert_by_Forall (P : A -> Prop) (x : A) (l : list A) :
  P x -> Forall P l -> Forall P (insert_by key x l).
Proof.
  intros Hx Hl. induction Hl as [|y l Hy Hl IH]; simpl.
  - now constructor.
  - destruct (str_ltb (key y) (key x)); repeat constructor; assumption.
Qed.

Lemma insert_by_sorted (x : A) (l : list A) :
  StronglySorted (key_le key) l -> StronglySorted (key_le key) (insert_by key x l).
Proof.
  intros Hl. induction Hl as [|y l Hl IH Hy]; simpl.
  - repeat constructor.
  - destruct (str_ltb (key y) (key x)) eqn:E.
    + constructor; [assumption|].
      apply insert_by_Forall; [|assumption].
      now apply str_ltb_le.
    + constructor; [now constructor|].
      constructor; [exact E|].
      eapply Forall_impl; [|exact Hy].
      intros z Hz. eapply str_le_trans; [exact E|exact Hz].
Qed.

Lemma sort_by_sorted (l : list A) : StronglySorted (key_le key) (sort_by key l).
Proof.
  induction l as [|x l IH]; simpl; [constructor|].
  now apply insert_by_sorted.
Qed.

Lemma insert_by_perm (x : A) (l : list A) :
  Permutation (x :: l) (insert_by key x l).
Proof.
  induction l as [|y l IH]; simpl; [reflexivity|].
  destruct (str_ltb (key y) (key x)); [|reflexivity].
  rewrite perm_swap. now constructor.
Qed.

Lemma sort_by_perm (l : list A) : Permutation l (sort_by key l).
Proof.
  induction l as [|x l IH]; simpl; [constructor|].
  rewrite <- insert_by_perm. now constructor.
Qed.

Lemma sort_by_length (l : list A) : List.length (sort_by key l) = List.length l.
Proof. symmetry. apply Permutation_length, sort_by_perm. Qed.
End Sorting.

(** ** The batch *)

Section Batch.
Variable ucd : UnicodeData.
Variable wordnet : CorpusReader.

Lemma generation_loop_cons (i : Z) (indices : list Z) (total : Z)
    (usernames : list (str * str)) (w : World) :
  generation_loop ucd wordnet (i :: indices) total usernames w =
  let message := lit "Generating username " ++ int_to_str (i + 1)
                   ++ lit "/" ++ int_to_str total ++ lit "..." in
  let w1 := snd (log_output_insert (message ++ newline)
                   (snd (LOGGER_log INFO message w))) in
  match choice language_codes w1 with
  | (Ok lang_code, w2) =>
      match generate_ascii_username ucd wordnet lang_code w2 with
      | (Ok username, w3) =>
          generation_loop ucd wordnet indices total
            (usernames ++ [(username, dict_get language_names lang_code lang_code)])
            w3
      | (Raise e, w3) => (Raise e, w3)
      end
  | (Raise e, w2) => (Raise e, w2)
  end.
Proof. reflexivity. Qed.

Lemma generate_usernames_unfold (w : World) :
  generate_usernames ucd wordnet w =
  match generation_loop ucd wordnet (range 40) 40 [] (batch_start w) with
  | (Ok usernames, w1) =>
      (tree_insert_all (sort_by fst usernames);;
       LOGGER_log INFO (lit "Username generation completed successfully.");;
       log_output_insert
         (lit "Username generation completed successfully." ++ newline)) w1
  | (Raise e, w1) => (Raise e, w1)
  end.
Proof. reflexivity. Qed.

(** When every language has a valid word the loop runs to its end, with
    one more pair per index. *)
Lemma generation_loop_ok (indices : list Z) (total : Z) :
  Forall (has_valid_words ucd wordnet) language_codes ->
  forall (usernames : list (str * str)) (w : World),
  exists l w',
    generation_loop ucd wordnet indices total usernames w = (Ok l, w') /\
    List.length l = (List.length usernames + List.length indices)%nat.
Proof.
  intros Hall. rewrite Forall_forall in Hall.
  induction indices as [|i indices IH]; intros usernames w.
  - exists usernames, w. split; [reflexivity|simpl; lia].
  - rewrite generation_loop_cons. cbv zeta.
    match goal with |- context [choice _ ?w1] => set (wa := w1) end.
    destruct (choice_nonempty language_codes wa) as (code & Hin & Hrun);
      [discriminate|].
    rewrite Hrun.
    destruct (generate_ascii_username_ok ucd wordnet code (advance wa)
                (Hall code Hin))
      as (word & username & w1 & w' & _ & _ & Hgen).
    rewrite Hgen.
    destruct (IH (usernames ++ [(username, dict_get language_names code code)]) w')
      as (l & w'' & Hloop & Hlen).
    exists l, w''. split; [assumption|].
    rewrite Hlen, length_app. simpl. lia.
Qed.

(** The loop stops at the first draw of a language without valid words. *)
Lemma generation_loop_first_empty (i : Z) (indices : list Z) (total : Z)
    (usernames : list (str * str)) (w : World) :
  valid_words ucd wordnet (first_language w) = [] ->
  fst (generation_loop ucd wordnet (i :: indices) total usernames w)
  = Raise empty_choice.
Proof.
  intros Hempty. rewrite generation_loop_cons. cbv zeta.
  match goal with |- context [choice _ ?w1] => set (wa := w1) end.
  assert (Hfirst : fst (choice language_codes wa) = fst (choice language_codes w))
    by (apply choice_next_draw; reflexivity).
  unfold first_language in Hempty. rewrite <- Hfirst in Hempty.
  destruct (choice_nonempty language_codes wa) as (code & Hin & Hrun);
    [discriminate|].
  rewrite Hrun in *. simpl in Hempty.
  pose proof (generate_ascii_username_empty ucd wordnet code (advance wa) Hempty)
    as Hgen.
  destruct (generate_ascii_username ucd wordnet code (advance wa))
    as [[username|e] w3]; simpl in Hgen; [discriminate|].
  injection Hgen as ->. reflexivity.
Qed.
End Batch.

Lemma first_language_batch_start (w : World) :
  first_language (batch_start w) = first_language w.
Proof.
  unfold first_language.
  now rewrite (choice_next_draw language_codes w (batch_start w)).
Qed.

Lemma range_40_cons : range 40 = 0 :: List.map Z.of_nat (seq 1 39).
Proof. reflexivity. Qed.

(** C3. When every language has a valid word, [generate_usernames] runs to
    its end and leaves exactly 40 rows in the table, in non-decreasing order
    of the username.  (One language with valid words is not enough: the
    batch ends at the first draw of a language without any.) *)
Theorem generate_usernames_sorted_batch (ucd : UnicodeData)
    (wordnet : CorpusReader) (w : World) :
  Forall (has_valid_words ucd wordnet) language_codes ->
  fst (generate_usernames ucd wordnet w) = Ok tt /\
  List.length (tree (snd (generate_usernames ucd wordnet w))) = 40%nat /\
  rows_sorted (tree (snd (generate_usernames ucd wordnet w))).
Proof.
  intros Hall. rewrite generate_usernames_unfold.
  destruct (generation_loop_ok ucd wordnet (range 40) 40 Hall [] (batch_start w))
    as (l & w' & Hloop & Hlen).
  pose proof (tree_kept_generation_loop ucd wordnet (range 40) 40 []
                (batch_start w)) as Htree.
  rewrite Hloop in *. simpl in Htree.
  unfold bind. rewrite tree_insert_all_run. simpl.
  rewrite Htree. simpl. repeat split.
  - now rewrite sort_by_length, Hlen.
  - apply sort_by_sorted.
Qed.

(** C3, on a corpus with a word for every language. *)
Lemma generate_usernames_sorted_batch_witness :
  Forall (has_valid_words Samples.plain_ucd Samples.shared_corpus) language_codes /\
  fst (generate_usernames Samples.plain_ucd Samples.shared_corpus
         (Samples.world_of 3 "capitalize" "3digit")) = Ok tt /\
  List.length (tree (snd (generate_usernames Samples.plain_ucd Samples.shared_corpus
                            (Samples.world_of 3 "capitalize" "3digit")))) = 40%nat /\
  rows_sorted (tree (snd (generate_usernames Samples.plain_ucd Samples.shared_corpus
                            (Samples.world_of 3 "capitalize" "3digit")))).
Proof.
  assert (H : Forall (has_valid_words Samples.plain_ucd Samples.shared_corpus)
                     language_codes).
  { apply Forall_forall. intros code _. unfold has_valid_words.
    vm_compute. discriminate. }
  split; [exact H|].
  apply (generate_usernames_sorted_batch Samples.plain_ucd Samples.shared_corpus
           (Samples.world_of 3 "capitalize" "3digit") H).
Defined.

(** C3 as stated fails: English has valid words, so not every language is
    empty, and yet the batch that first draws Spanish ends in an exception
    with no row in the table. *)
Lemma generate_usernames_one_empty_language :
  valid_words Samples.plain_ucd Samples.english_corpus (lit "eng")
    = [lit "cat"; lit "wolf"] /\
  first_language (Samples.world_of 1 "lowercase" "none") = lit "spa" /\
  fst (generate_usernames Samples.plain_ucd Samples.english_corpus
         (Samples.world_of 1 "lowercase" "none")) = Raise empty_choice /\
  tree (snd (generate_usernames Samples.plain_ucd Samples.english_corpus
               (Samples.world_of 1 "lowercase" "none"))) = [].
Proof. vm_compute. repeat split. Qed.

(** ** Empty sets of valid words *)

(** A batch whose first draw selects a language without valid words ends
    in the [IndexError] of [random.choice], with nothing in the table. *)
Lemma generate_usernames_first_empty (ucd : UnicodeData)
    (wordnet : CorpusReader) (w : World) :
  valid_words ucd wordnet (first_language w) = [] ->
  fst (generate_usernames ucd wordnet w) = Raise empty_choice /\
  exc_class empty_choice = "IndexError"%string /\
  tree (snd (generate_usernames ucd wordnet w)) = [].
Proof.
  intros Hempty. rewrite <- first_language_batch_start in Hempty.
  rewrite generate_usernames_unfold.
  pose proof (tree_kept_generation_loop ucd wordnet (range 40) 40 []
                (batch_start w)) as Htree.
  pose proof (generation_loop_first_empty ucd wordnet 0
                (List.map Z.of_nat (seq 1 39)) 40 [] (batch_start w) Hempty)
    as Hloop.
  rewrite <- range_40_cons in Hloop.
  destruct (generation_loop ucd wordnet (range 40) 40 [] (batch_start w))
    as [[l|e] w1]; simpl in Hloop; [discriminate|].
  injection Hloop as ->. simpl in *. auto.
Qed.

Lemma first_language_In (w : World) : In (first_language w) language_codes.
Proof.
  unfold first_language.
  destruct (choice_nonempty language_codes w) as (code & Hin & Hrun);
    [discriminate|].
  now rewrite Hrun.
Qed.

(** So does every batch when no language has a valid word. *)
Lemma generate_usernames_all_empty (ucd : UnicodeData)
    (wordnet : CorpusReader) (w : World) :
  Forall (fun code => valid_words ucd wordnet code = []) language_codes ->
  fst (generate_usernames ucd wordnet w) = Raise empty_choice.
Proof.
  intros Hall. rewrite Forall_forall in Hall.
  apply generate_usernames_first_empty, Hall, first_language_In.
Qed.

(** C1 as stated fails.  With no word in any language the batch raises an
    [IndexError], not a [NoValidWordsError].  And when Spanish, without
    words, is drawn first while every later draw would select English, which
    has two valid words, the batch has raised after that single draw: the
    draw was not tried again. *)
Lemma generate_usernames_no_retry :
  Forall (fun code => valid_words Samples.plain_ucd Samples.empty_corpus code = [])
         language_codes /\
  (exists e,
     fst (generate_usernames Samples.plain_ucd Samples.empty_corpus
            (Samples.world_of 0 "lowercase" "none")) = Raise e /\
     exc_class e = "IndexError"%string /\
     exc_class e <> "NoValidWordsError"%string) /\
  valid_words Samples.plain_ucd Samples.english_corpus (lit "eng")
    = [lit "cat"; lit "wolf"] /\
  first_language Samples.retry_world = lit "spa" /\
  first_language (advance Samples.retry_world) = lit "eng" /\
  fst (generate_usernames Samples.plain_ucd Samples.english_corpus
         Samples.retry_world) = Raise empty_choice /\
  rand_pos (snd (generate_usernames Samples.plain_ucd Samples.english_corpus
                   Samples.retry_world)) = 1%nat.
Proof.
  split.
  { apply Forall_forall. intros code _. reflexivity. }
  split.
  { exists empty_choice.
    split; [vm_compute; reflexivity|split; [reflexivity|vm_compute; discriminate]]. }
  vm_compute. repeat split.
Qed.

(** ** Look-up failures *)

(** [get_words] itself recovers from a failing look-up: it returns the words
    gathered so far and adds one warning to the log. *)
Lemma get_words_recovers (ucd : UnicodeData) (wordnet : CorpusReader)
    (lang_code : str) (w : World) :
  exists words w',
    get_words ucd wordnet lang_code w = (Ok words, w') /\
    forall exc,
      snd (scan_synsets ucd (all_synsets wordnet) lang_code []) = Some exc ->
      LOGGER w' = LOGGER w ++
        [(WARNING, lit "Failed to fetch words for '" ++ lang_code ++ lit "': "
                     ++ exc_str exc)].
Proof.
  rewrite get_words_run. eexists. eexists. split; [reflexivity|].
  intros exc ->. reflexivity.
Qed.

(** C7.  A look-up that fails for Spanish is caught in [get_words], which
    logs a warning and returns no word; with no word to choose from the draw
    then raises [IndexError], nothing catches it, and the batch ends with an
    empty table although English has valid words. *)
Lemma lookup_failure_ends_batch :
  valid_words Samples.plain_ucd Samples.broken_corpus (lit "eng")
    = [lit "cat"; lit "wolf"] /\
  first_language (Samples.world_of 1 "lowercase" "none") = lit "spa" /\
  fst (get_words Samples.plain_ucd Samples.broken_corpus (lit "spa")
         (Samples.world_of 1 "lowercase" "none")) = Ok [] /\
  LOGGER (snd (get_words Samples.plain_ucd Samples.broken_corpus (lit "spa")
                 (Samples.world_of 1 "lowercase" "none")))
    = [(WARNING,
        lit "Failed to fetch words for 'spa': Language is not supported.")] /\
  fst (generate_usernames Samples.plain_ucd Samples.broken_corpus
         (Samples.world_of 1 "lowercase" "none")) = Raise empty_choice /\
  tree (snd (generate_usernames Samples.plain_ucd Samples.broken_corpus
               (Samples.world_of 1 "lowercase" "none"))) = [].
Proof. vm_compute. repeat split. Qed.

(** * Further properties *)

(** ** The formatter, step by step *)

Lemma digit_char_is_digit (d : Z) :
  0 <= d <= 9 -> is_ascii_digit (digit_char d) = true.
Proof.
  intros H. pose proof (digit_char_range d H) as [Hlo Hhi].
  unfold is_ascii_digit. apply andb_true_iff. split; now apply N.leb_le.
Qed.

(** What [finalize_username] returns and the state it leaves. *)
Lemma finalize_username_spec (ucd : UnicodeData) (word : str) (w : World) :
  exists suffix,
    finalize_username ucd word w =
      (Ok (case_transform ucd (case_var w) word ++ suffix),
       match suffix_width (number_var w) with
       | O => w
       | S _ => advance w
       end) /\
    List.length suffix = suffix_width (number_var w) /\
    Forall (fun c => is_ascii_digit c = true) suffix.
Proof.
  rewrite finalize_username_run. cbv zeta. unfold suffix_width.
  set (n := Z.of_N (next_draw w)).
  pose proof (Z.mod_pos_bound n 10 ltac:(lia)) as B1.
  pose proof (Z.mod_pos_bound n 100 ltac:(lia)) as B2.
  pose proof (Z.mod_pos_bound n 1000 ltac:(lia)) as B3.
  destruct (str_eqb (number_var w) (lit "1digit")).
  { rewrite int_to_str_1digit by lia. eexists. split; [reflexivity|].
    split; [reflexivity|]. repeat constructor. apply digit_char_is_digit. lia. }
  destruct (str_eqb (number_var w) (lit "2digit")).
  { rewrite format_0d_2digit by lia. eexists. split; [reflexivity|].
    split; [reflexivity|].
    pose proof (Z.div_mod (n mod 100) 10 ltac:(lia)).
    pose proof (Z.mod_pos_bound (n mod 100) 10 ltac:(lia)).
    repeat constructor; apply digit_char_is_digit; lia. }
  destruct (str_eqb (number_var w) (lit "3digit")).
  { rewrite format_0d_3digit by lia. eexists. split; [reflexivity|].
    split; [reflexivity|].
    set (m := n mod 1000) in *.
    pose proof (Z.div_mod m 10 ltac:(lia)).
    pose proof (Z.div_mod (m / 10) 10 ltac:(lia)).
    pose proof (Z.mod_pos_bound m 10 ltac:(lia)).
    pose proof (Z.mod_pos_bound (m / 10) 10 ltac:(lia)).
    assert (m / 100 = m / 10 / 10) by (rewrite Z.div_div by lia; reflexivity).
    repeat constructor; apply digit_char_is_digit; lia. }
  exists []. rewrite app_nil_r. repeat split. constructor.
Qed.

(** ** The candidate words, once more *)

Section GetWordsFacts.
Variable ucd : UnicodeData.
Variable wordnet : CorpusReader.

Lemma append_lemma_names_app (ls : list Lemma_) (words : list str) :
  append_lemma_names ucd ls words =
  words ++ filter (str_isalnum ucd) (List.map name ls).
Proof.
  revert words. induction ls as [|lemma ls IH]; intros words; simpl.
  - now rewrite app_nil_r.
  - rewrite IH. destruct (str_isalnum ucd (name lemma)); [|reflexivity].
    now rewrite <- app_assoc.
Qed.

Lemma scan_synsets_app (synsets : generator Synset) (lang_code : str)
    (words : list str) :
  fst (scan_synsets ucd synsets lang_code words) =
  words ++ names_until_failure ucd lang_code (yielded synsets).
Proof.
  revert words. induction synsets as [|synset rest IH|exc]; intros words; simpl;
    try now rewrite app_nil_r.
  destruct (lemmas synset lang_code) as [ls|exc]; simpl.
  - rewrite IH, append_lemma_names_app. now rewrite <- app_assoc.
  - now rewrite app_nil_r.
Qed.

(** The state [get_words] leaves: the one it found, or that state with one
    warning more in the logger and, from the handler, in the log window. *)
Lemma get_words_state (lang_code : str) (w : World) :
  let w' := snd (get_words ucd wordnet lang_code w) in
  rand_tape w' = rand_tape w /\ rand_pos w' = rand_pos w /\
  case_var w' = case_var w /\ number_var w' = number_var w /\
  tree w' = tree w /\ asctime w' = asctime w /\
  match snd (scan_synsets ucd (all_synsets wordnet) lang_code []) with
  | None => w' = w
  | Some exc =>
      let msg := lit "Failed to fetch words for '" ++ lang_code ++ lit "': "
                   ++ exc_str exc in
      LOGGER w' = LOGGER w ++ [(WARNING, msg)] /\
      log_output w' =
        log_output w ++
        [TextHandler_format (asctime w (List.length (LOGGER w))) WARNING msg
           ++ newline]
  end.
Proof.
  rewrite get_words_run. cbv zeta. cbn [snd].
  destruct (snd (scan_synsets ucd (all_synsets wordnet) lang_code []))
    as [exc|]; repeat split; reflexivity.
Qed.

Lemma get_words_growth (lang_code : str) (w : World) :
  exists recs,
    log_growth 0 recs w (snd (get_words ucd wordnet lang_code w)) /\
    forallb is_warning recs = true.
Proof.
  destruct (get_words_state lang_code w) as (_ & _ & _ & _ & _ & Ha & Hlog).
  cbv zeta in *. unfold log_growth.
  destruct (snd (scan_synsets ucd (all_synsets wordnet) lang_code []))
    as [exc|].
  - destruct Hlog as [Hl Ho].
    exists [(WARNING, lit "Failed to fetch words for '" ++ lang_code
                        ++ lit "': " ++ exc_str exc)].
    split; [|reflexivity].
    rewrite Hl, Ho, length_app. simpl. repeat split; [assumption|lia].
  - rewrite Hlog. exists []. rewrite app_nil_r. simpl. repeat split; lia.
Qed.

(** One draw: the settings stay, only warnings are logged, and either the
    language has no valid word and the draw raises without a draw consumed
    for the word, or a username formatted from a valid word comes back. *)
Lemma generate_ascii_username_spec (lang_code : str) (w : World) :
  let res := generate_ascii_username ucd wordnet lang_code w in
  same_settings w (snd res) /\
  (exists recs, log_growth 0 recs w (snd res) /\
                forallb is_warning recs = true) /\
  ((valid_words ucd wordnet lang_code = [] /\ fst res = Raise empty_choice /\
    rand_pos (snd res) = rand_pos w) \/
   (valid_words ucd wordnet lang_code <> [] /\
    exists username,
      fst res = Ok username /\
      formatted_from ucd wordnet (case_var w) (number_var w) lang_code username /\
      S (rand_pos (snd res)) = (rand_pos w + draws_per_username (number_var w))%nat)).
Proof.
  cbv zeta. unfold generate_ascii_username, bind.
  destruct (get_words_state lang_code w) as (Ht & Hp & Hc & Hn & Htr & _ & _).
  destruct (get_words_growth lang_code w) as (recs & Hg & Hw).
  rewrite get_words_run in *. cbn [snd] in *.
  fold (valid_words ucd wordnet lang_code).
  match goal with |- context [choice _ ?w1] => set (wg := w1) in * end.
  assert (Hlog : forall w1, w1 = wg \/ w1 = advance wg \/ w1 = advance (advance wg) ->
            exists recs, log_growth 0 recs w w1 /\ forallb is_warning recs = true).
  { intros w1 H. exists recs. split; [|assumption].
    destruct H as [-> | [-> | ->]]; exact Hg. }
  destruct (valid_words ucd wordnet lang_code) as [|v vs] eqn:Ev.
  - rewrite choice_empty. cbn [fst snd]. unfold same_settings.
    split; [auto|]. split; [apply Hlog; auto|]. left. auto.
  - destruct (choice_nonempty (v :: vs) wg) as (word & Hin & Hrun);
      [discriminate|].
    rewrite Hrun.
    destruct (finalize_username_spec ucd word (advance wg))
      as (suffix & Hfin & Hlen & Hdig).
    rewrite Hfin. cbn [fst snd].
    assert (Hfields : forall w1, w1 = advance wg \/ w1 = advance (advance wg) ->
              same_settings w w1).
    { intros w1 [-> | ->]; unfold same_settings, advance; simpl; auto. }
    change (case_var (advance wg)) with (case_var wg) in *.
    change (number_var (advance wg)) with (number_var wg) in *.
    rewrite Hc, Hn in *. unfold draws_per_username.
    destruct (suffix_width (number_var w)) eqn:Ew.
    + split; [apply Hfields; now left|]. split; [apply Hlog; auto|]. right.
      split; [discriminate|]. eexists. split; [reflexivity|]. split.
      * exists word, suffix. rewrite Ew. rewrite <- Ev in Hin. auto.
      * simpl. lia.
    + split; [apply Hfields; now right|]. split; [apply Hlog; auto|]. right.
      split; [discriminate|]. eexists. split; [reflexivity|]. split.
      * exists word, suffix. rewrite Ew. rewrite <- Ev in Hin. auto.
      * simpl. lia.
Qed.
End GetWordsFacts.

(** ** The loop, draw by draw *)

Lemma dict_get_In {V} (d : dict str V) (key : str) (default : V) :
  In key (keys d) -> In (key, dict_get d key default) d.
Proof.
  unfold dict_get. induction d as [|[k v] d IH]; simpl; [contradiction|].
  intros Hin. destruct (str_eqb k key) eqn:E.
  - apply str_eqb_eq in E. subst. now left.
  - right. apply IH. destruct Hin as [Hk|Hin]; [|assumption].
    apply str_eqb_neq in E. contradiction.
Qed.

Lemma log_growth_trans (a b : nat) (r1 r2 : list (log_level * str))
    (w w1 w2 : World) :
  log_growth a r1 w w1 -> log_growth b r2 w1 w2 ->
  log_growth (a + b) (r1 ++ r2) w w2.
Proof.
  intros (Ha1 & Hl1 & Ho1) (Ha2 & Hl2 & Ho2). unfold log_growth.
  rewrite Ha2, Ha1, Hl2, Hl1, Ho2, Ho1, length_app, <- app_assoc.
  repeat split. lia.
Qed.

Lemma filter_is_info_warnings (recs : list (log_level * str)) :
  forallb is_warning recs = true ->
  filter is_info recs = [] /\
  forallb (fun record => is_info record || is_warning record) recs = true.
Proof.
  induction recs as [|[lvl msg] recs IH]; simpl; [auto|].
  intros H. apply andb_true_iff in H as [Hw Hrest].
  destruct (IH Hrest) as [IH1 IH2]. rewrite IH2.
  unfold is_warning, is_info in *. simpl in *. destruct lvl; try discriminate.
  auto.
Qed.

Lemma Forall2_exists_left {A B} (R : A -> B -> Prop) (l1 : list A) (l2 : list B) :
  Forall2 R l1 l2 -> Forall (fun y => exists x, R x y) l2.
Proof. induction 1; constructor; eauto. Qed.

Section LoopFacts.
Variable ucd : UnicodeData.
Variable wordnet : CorpusReader.

(** The loop either runs to its end, with one language chosen and one row
    per index, two or three draws per row, one progress record and one line
    of its own per index, or stops with the [IndexError] of an empty choice
    at the first language chosen that has no valid word.  The settings stay
    as they were in both cases. *)
Lemma generation_loop_spec (indices : list Z) (total : Z) :
  forall (usernames : list (str * str)) (w : World),
  let res := generation_loop ucd wordnet indices total usernames w in
  let drawn := loop_languages ucd wordnet indices total w in
  same_settings w (snd res) /\
  ((exists new,
      fst res = Ok (usernames ++ new) /\
      List.length new = List.length indices /\
      Forall2 (fun lang_code row =>
                 In (lang_code, snd row) language_names /\
                 formatted_from ucd wordnet (case_var w) (number_var w)
                   lang_code (fst row)) drawn new /\
      Forall (has_valid_words ucd wordnet) drawn /\
      rand_pos (snd res) =
        (rand_pos w + List.length indices * draws_per_username (number_var w))%nat /\
      exists recs,
        log_growth (List.length indices) recs w (snd res) /\
        filter is_info recs =
          List.map (fun i => (INFO, progress_message total i)) indices /\
        forallb (fun record => is_info record || is_warning record) recs = true) \/
   (fst res = Raise empty_choice /\
    exists pre lang_code,
      drawn = pre ++ [lang_code] /\
      Forall (has_valid_words ucd wordnet) pre /\
      In lang_code language_codes /\
      valid_words ucd wordnet lang_code = [])).
Proof.
  induction indices as [|i indices IH]; intros usernames w; cbv zeta.
  - simpl. split; [unfold same_settings; auto|]. left. exists [].
    rewrite !app_nil_r. repeat split; auto.
    exists []. unfold log_growth. rewrite app_nil_r. simpl.
    repeat split; lia.
  - rewrite generation_loop_cons. cbn [loop_languages]. cbv zeta.
    unfold progress_message.
    match goal with |- context [choice _ ?w1] => set (wa := w1) end.
    assert (Hwa : same_settings w wa /\ rand_pos wa = rand_pos w /\
                  log_growth 1 [(INFO, progress_message total i)] w wa).
    { unfold same_settings, log_growth. repeat split.
      unfold wa, log_output_insert, LOGGER_log, TextHandler_emit.
      cbn [snd log_output]. rewrite !length_app. simpl. lia. }
    destruct Hwa as ((Ht & Hc & Hn & Htr) & Hp & Hg).
    destruct (choice_nonempty language_codes wa) as (code & Hin & Hrun);
      [discriminate|].
    rewrite Hrun.
    destruct (generate_ascii_username_spec ucd wordnet code (advance wa))
      as ((Ht1 & Hc1 & Hn1 & Htr1) & (recs1 & Hg1 & Hw1) & Hcases).
    assert (Hga : log_growth 1 [(INFO, progress_message total i)] w (advance wa))
      by exact Hg.
    pose proof (log_growth_trans _ _ _ _ _ _ _ Hga Hg1) as Hg2.
    change (case_var (advance wa)) with (case_var wa) in *.
    change (number_var (advance wa)) with (number_var wa) in *.
    change (rand_tape (advance wa)) with (rand_tape wa) in *.
    change (tree (advance wa)) with (tree wa) in *.
    change (rand_pos (advance wa)) with (S (rand_pos wa)) in *.
    destruct (filter_is_info_warnings recs1 Hw1) as [Hf1 Hiw1].
    destruct (generate_ascii_username ucd wordnet code (advance wa))
      as [[username|e] w3]; cbn [fst snd] in *.
    + destruct Hcases as [(_ & Habs & _)|(Hne & u & Hu & Hfrom & Hpos)];
        [discriminate|].
      injection Hu as <-.
      specialize (IH (usernames ++
                        [(username, dict_get language_names code code)]) w3).
      cbv zeta in IH. destruct IH as ((Ht2 & Hc2 & Hn2 & Htr2) & IH).
      split; [unfold same_settings; repeat split; congruence|].
      destruct IH as [(new & Hres & Hlen & Hrows & Hvalid & Hpos2 & recs & Hg3 & Hf & Hiw)
                     |(Hres & pre & code' & Hdrawn & Hpre & Hin' & Hempty)].
      * left.
        exists ((username, dict_get language_names code code) :: new).
        rewrite Hres, <- app_assoc. split; [reflexivity|].
        split; [simpl; congruence|]. split; [|split; [|split]].
        -- constructor.
           ++ split; [now apply dict_get_In|].
              cbn [fst]. rewrite <- Hc, <- Hn. exact Hfrom.
           ++ rewrite Hc1, Hn1, Hc, Hn in Hrows. exact Hrows.
        -- constructor; assumption.
        -- rewrite Hpos2, Hn1, Hn. rewrite Hn, Hp in Hpos. simpl. lia.
        -- exists (([(INFO, progress_message total i)] ++ recs1) ++ recs).
           split; [|split].
           ++ pose proof (log_growth_trans _ _ _ _ _ _ _ Hg2 Hg3) as Hg4.
              replace (S (List.length indices))
                with (1 + 0 + List.length indices)%nat by lia.
              exact Hg4.
           ++ rewrite !filter_app, Hf1, Hf. reflexivity.
           ++ rewrite !forallb_app, Hiw1, Hiw. reflexivity.
      * right. split; [assumption|].
        exists (code :: pre), code'. rewrite Hdrawn.
        repeat split; try assumption. constructor; assumption.
    + destruct Hcases as [(Hempty & He & _)|(_ & u & Hu & _)]; [|discriminate].
      split; [unfold same_settings; repeat split; congruence|].
      right. injection He as ->. split; [reflexivity|].
      exists [], code. repeat split; auto.
Qed.

(** The two outcomes of a batch, with what each leaves behind. *)
Lemma generate_usernames_spec (w : World) :
  let res := generate_usernames ucd wordnet w in
  let drawn := languages_drawn ucd wordnet w in
  rand_tape (snd res) = rand_tape w /\ case_var (snd res) = case_var w /\
  number_var (snd res) = number_var w /\
  ((exists rows,
      fst res = Ok tt /\
      tree (snd res) = sort_by fst rows /\
      List.length rows = 40%nat /\
      Forall (row_from_corpus ucd wordnet (case_var w) (number_var w)) rows /\
      rand_pos (snd res) = (rand_pos w + 40 * draws_per_username (number_var w))%nat /\
      (Forall2 (fun lang_code row =>
                  In (lang_code, snd row) language_names /\
                  formatted_from ucd wordnet (case_var w) (number_var w)
                    lang_code (fst row)) drawn rows /\
       Forall (has_valid_words ucd wordnet) drawn) /\
      exists recs,
        log_growth 42 recs w (snd res) /\
        filter is_info recs =
          (INFO, lit "Starting username generation...")
            :: List.map (fun i => (INFO, progress_message 40 i)) (range 40)
            ++ [(INFO, lit "Username generation completed successfully.")] /\
        forallb (fun record => is_info record || is_warning record) recs = true /\
        exists before,
          log_output (snd res) =
            before ++ [lit "Username generation completed successfully."
                         ++ newline]) \/
   (fst res = Raise empty_choice /\ tree (snd res) = [] /\
    (exists lang_code, In lang_code language_codes /\
                       valid_words ucd wordnet lang_code = []) /\
    exists pre lang_code,
      drawn = pre ++ [lang_code] /\
      Forall (has_valid_words ucd wordnet) pre /\
      valid_words ucd wordnet lang_code = [])).
Proof.
  cbv zeta. unfold languages_drawn. rewrite generate_usernames_unfold.
  destruct (generation_loop_spec (range 40) 40 [] (batch_start w))
    as ((Ht & Hc & Hn & Htr) & Hcases).
  assert (Hstart : log_growth 1 [(INFO, lit "Starting username generation...")]
                     w (batch_start w)).
  { unfold log_growth, batch_start, tree_clear, log_output_insert, LOGGER_log,
      TextHandler_emit. cbn [snd log_output LOGGER asctime].
    rewrite !length_app. simpl. repeat split. }
  change (rand_tape (batch_start w)) with (rand_tape w) in *.
  change (case_var (batch_start w)) with (case_var w) in *.
  change (number_var (batch_start w)) with (number_var w) in *.
  change (tree (batch_start w)) with (@nil (str * str)) in *.
  change (rand_pos (batch_start w)) with (rand_pos w) in *.
  destruct (generation_loop ucd wordnet (range 40) 40 [] (batch_start w))
    as [[l|e] w1]; cbn [fst snd] in *.
  - destruct Hcases as [(new & Hres & Hlen & Hrows & Hvalid & Hpos & recs & Hg & Hf & Hiw)
                       |(Habs & _)]; [|discriminate].
    injection Hres as ->. unfold bind. rewrite tree_insert_all_run.
    cbn [LOGGER_log log_output_insert fst snd rand_tape rand_pos case_var
           number_var tree log_output LOGGER asctime].
    repeat split; try assumption. left. exists new.
    rewrite Htr.
    change (List.length (range 40)) with 40%nat in *.
    split; [reflexivity|]. split; [reflexivity|]. split; [assumption|].
    split; [|split; [assumption|split; [split; assumption|]]].
    { eapply Forall_impl; [|exact (Forall2_exists_left _ _ _ Hrows)].
      intros row (code & Hname & Hfrom). exists code. auto. }
    exists (([(INFO, lit "Starting username generation...")] ++ recs)
              ++ [(INFO, lit "Username generation completed successfully.")]).
    pose proof (log_growth_trans _ _ _ _ _ _ _ Hstart Hg) as (Ha & Hl & Ho).
    split; [|split; [|split]].
    + unfold log_growth, TextHandler_emit.
      cbn [LOGGER log_output asctime]. rewrite Hl, !length_app, Ho, !length_app.
      simpl. repeat split; [assumption|now rewrite <- !app_assoc|lia].
    + rewrite !filter_app, Hf. reflexivity.
    + rewrite !forallb_app, Hiw. reflexivity.
    + eexists. reflexivity.
  - destruct Hcases as [(new & Habs & _)|(He & pre & code & Hd & Hpre & Hin & Hempty)];
      [discriminate|].
    injection He as ->. repeat split; try assumption. right.
    split; [reflexivity|]. split; [assumption|]. split; [exists code; auto|].
    exists pre, code. auto.
Qed.
End LoopFacts.

(** ** The batch, whatever the corpus *)

(** X1. A batch has two outcomes and no other.  Either it succeeds and the
    table holds exactly 40 rows in non-decreasing order of the username, or
    it raises the [IndexError] of [random.choice] on an empty sequence, the
    table is left empty, and some configured language has no valid word.
    No other exception leaves [generate_usernames]. *)
Theorem generate_usernames_outcomes (ucd : UnicodeData)
    (wordnet : CorpusReader) (w : World) :
  (fst (generate_usernames ucd wordnet w) = Ok tt /\
   List.length (tree (snd (generate_usernames ucd wordnet w))) = 40%nat /\
   rows_sorted (tree (snd (generate_usernames ucd wordnet w)))) \/
  (fst (generate_usernames ucd wordnet w) = Raise empty_choice /\
   tree (snd (generate_usernames ucd wordnet w)) = [] /\
   exists lang_code, In lang_code language_codes /\
                     valid_words ucd wordnet lang_code = []).
Proof.
  destruct (generate_usernames_spec ucd wordnet w) as (_ & _ & _ & Hcases).
  destruct Hcases as [(rows & Hok & Htree & Hlen & _)|Hfail]; [left|now right].
  rewrite Htree. repeat split; [assumption| |apply sort_by_sorted].
  now rewrite sort_by_length.
Qed.

(** X2. After a batch that succeeded every row of the table pairs a
    username made from a valid word of some configured language (that word
    under the case style, followed by as many decimal digits as the number
    style asks for) with the display name the table of languages gives for
    that very language. *)
Theorem generate_usernames_rows_from_corpus (ucd : UnicodeData)
    (wordnet : CorpusReader) (w : World) :
  fst (generate_usernames ucd wordnet w) = Ok tt ->
  Forall (row_from_corpus ucd wordnet (case_var w) (number_var w))
         (tree (snd (generate_usernames ucd wordnet w))).
Proof.
  intros Hok.
  destruct (generate_usernames_spec ucd wordnet w) as (_ & _ & _ & Hcases).
  destruct Hcases as [(rows & _ & Htree & _ & Hrows & _)|(Hfail & _)].
  - rewrite Htree. eapply Permutation_Forall; [apply sort_by_perm|exact Hrows].
  - rewrite Hfail in Hok. discriminate.
Qed.

(** X2, on the corpus with English words only and a generator that always
    draws English. *)
Lemma generate_usernames_rows_from_corpus_witness :
  fst (generate_usernames Samples.plain_ucd Samples.english_corpus
         (Samples.world_of 0 "capitalize" "2digit")) = Ok tt /\
  Forall (row_from_corpus Samples.plain_ucd Samples.english_corpus
            (case_var (Samples.world_of 0 "capitalize" "2digit"))
            (number_var (Samples.world_of 0 "capitalize" "2digit")))
         (tree (snd (generate_usernames Samples.plain_ucd Samples.english_corpus
                       (Samples.world_of 0 "capitalize" "2digit")))).
Proof.
  split; [vm_compute; reflexivity|].
  apply (generate_usernames_rows_from_corpus Samples.plain_ucd
           Samples.english_corpus (Samples.world_of 0 "capitalize" "2digit")).
  vm_compute. reflexivity.
Defined.

(** X3. A batch that succeeded has consumed exactly two draws per username
    (the language, the word) when no digit is appended and exactly three
    when a digit style is selected: 80 or 120 in all.  The stream of draws
    itself and the two style variables are as before. *)
Theorem generate_usernames_draws (ucd : UnicodeData)
    (wordnet : CorpusReader) (w : World) :
  fst (generate_usernames ucd wordnet w) = Ok tt ->
  rand_pos (snd (generate_usernames ucd wordnet w)) =
    (rand_pos w + 40 * draws_per_username (number_var w))%nat /\
  (draws_per_username (number_var w) = 3%nat <->
   number_var w = lit "1digit" \/ number_var w = lit "2digit" \/
   number_var w = lit "3digit") /\
  (draws_per_username (number_var w) = 2%nat \/
   draws_per_username (number_var w) = 3%nat) /\
  rand_tape (snd (generate_usernames ucd wordnet w)) = rand_tape w /\
  case_var (snd (generate_usernames ucd wordnet w)) = case_var w /\
  number_var (snd (generate_usernames ucd wordnet w)) = number_var w.
Proof.
  intros Hok.
  destruct (generate_usernames_spec ucd wordnet w) as (Ht & Hc & Hn & Hcases).
  destruct Hcases as [(rows & _ & _ & _ & _ & Hpos & _)|(Hfail & _)];
    [|rewrite Hfail in Hok; discriminate].
  split; [exact Hpos|]. split; [|split; [|auto]].
  - unfold draws_per_username, suffix_width.
    destruct (str_eqb (number_var w) (lit "1digit")) eqn:E1;
      [apply str_eqb_eq in E1; split; auto|apply str_eqb_neq in E1].
    destruct (str_eqb (number_var w) (lit "2digit")) eqn:E2;
      [apply str_eqb_eq in E2; split; auto|apply str_eqb_neq in E2].
    destruct (str_eqb (number_var w) (lit "3digit")) eqn:E3;
      [apply str_eqb_eq in E3; split; auto|apply str_eqb_neq in E3].
    split; [discriminate|]. intros [H|[H|H]]; contradiction.
  - unfold draws_per_username. destruct (suffix_width (number_var w)); auto.
Qed.

(** X3, with two digits: 120 draws. *)
Lemma generate_usernames_draws_witness :
  fst (generate_usernames Samples.plain_ucd Samples.shared_corpus
         (Samples.world_of 3 "lowercase" "2digit")) = Ok tt /\
  rand_pos (snd (generate_usernames Samples.plain_ucd Samples.shared_corpus
                   (Samples.world_of 3 "lowercase" "2digit"))) = 120%nat.
Proof.
  split; [vm_compute; reflexivity|].
  destruct (generate_usernames_draws Samples.plain_ucd Samples.shared_corpus
              (Samples.world_of 3 "lowercase" "2digit"))
    as (Hpos & _); [vm_compute; reflexivity|].
  rewrite Hpos. reflexivity.
Defined.

Lemma info_or_warning_length (recs : list (log_level * str)) :
  forallb (fun record => is_info record || is_warning record) recs = true ->
  List.length recs =
    (List.length (filter is_info recs) + List.length (filter is_warning recs))%nat.
Proof.
  induction recs as [|[lvl msg] recs IH]; simpl; [reflexivity|].
  intros H. apply andb_true_iff in H as [Hr Hrest]. specialize (IH Hrest).
  unfold is_info, is_warning in *. simpl in *.
  destruct lvl; try discriminate; simpl; lia.
Qed.

(** X4. A batch that succeeded has handed the logger exactly 42 records of
    level INFO, the opening one, ["Generating username i/40..."] for each
    [i] from 1 to 40 in order and the closing one, and besides them only
    warnings (of look-ups that failed).  The log window has received one
    line for each of these records, from the logger's [TextHandler], and the
    42 lines that [generate_usernames] inserts itself: 84 lines and one more
    for each warning, the last of them the closing line. *)
Theorem generate_usernames_log_window (ucd : UnicodeData)
    (wordnet : CorpusReader) (w : World) :
  fst (generate_usernames ucd wordnet w) = Ok tt ->
  exists recs,
    LOGGER (snd (generate_usernames ucd wordnet w)) = LOGGER w ++ recs /\
    filter is_info recs =
      (INFO, lit "Starting username generation...")
        :: List.map (fun i => (INFO, progress_message 40 i)) (range 40)
        ++ [(INFO, lit "Username generation completed successfully.")] /\
    forallb (fun record => is_info record || is_warning record) recs = true /\
    List.length recs = (42 + List.length (filter is_warning recs))%nat /\
    List.length (log_output (snd (generate_usernames ucd wordnet w))) =
      (List.length (log_output w) + 84
       + List.length (filter is_warning recs))%nat /\
    (exists before,
       log_output (snd (generate_usernames ucd wordnet w)) =
         before ++ [lit "Username generation completed successfully."
                      ++ newline]) /\
    (forall i, 0 <= i < 40 ->
       nth_error (List.map (fun i => (INFO, progress_message 40 i)) (range 40))
                 (Z.to_nat i) =
       Some (INFO, lit "Generating username " ++ int_to_str (i + 1)
                     ++ lit "/40...")).
Proof.
  intros Hok.
  destruct (generate_usernames_spec ucd wordnet w) as (_ & _ & _ & Hcases).
  destruct Hcases as [(rows & _ & _ & _ & _ & _ & _ & recs & Hg & Hf & Hiw & Hlast)
                     |(Hfail & _)];
    [|rewrite Hfail in Hok; discriminate].
  destruct Hg as (_ & Hl & Ho).
  pose proof (info_or_warning_length recs Hiw) as Hlen.
  rewrite Hf in Hlen. cbn [List.length] in Hlen.
  rewrite length_app, length_map in Hlen.
  change (List.length (range 40)) with 40%nat in Hlen. simpl in Hlen.
  exists recs. split; [exact Hl|]. split; [exact Hf|]. split; [exact Hiw|].
  split; [lia|]. split; [lia|]. split; [exact Hlast|].
  intros i Hi. rewrite nth_error_map. unfold range.
  rewrite nth_error_map, nth_error_seq.
  destruct (Nat.ltb_spec (Z.to_nat i) (Z.to_nat 40)) as [_|Hge]; [|lia].
  cbn [option_map]. rewrite Nat.add_0_l, Z2Nat.id by lia.
  reflexivity.
Qed.

(** X4, on a state whose log window already has a line: 85 lines after a
    batch without warnings. *)
Lemma generate_usernames_log_window_witness :
  fst (generate_usernames Samples.plain_ucd Samples.shared_corpus
         (Samples.busy_world 3 "lowercase" "none")) = Ok tt /\
  List.length (log_output (snd (generate_usernames Samples.plain_ucd
                                  Samples.shared_corpus
                                  (Samples.busy_world 3 "lowercase" "none"))))
    = 85%nat /\
  exists recs,
    LOGGER (snd (generate_usernames Samples.plain_ucd Samples.shared_corpus
                   (Samples.busy_world 3 "lowercase" "none")))
      = LOGGER (Samples.busy_world 3 "lowercase" "none") ++ recs /\
    List.length recs = (42 + List.length (filter is_warning recs))%nat.
Proof.
  split; [vm_compute; reflexivity|]. split; [vm_compute; reflexivity|].
  destruct (generate_usernames_log_window Samples.plain_ucd Samples.shared_corpus
              (Samples.busy_world 3 "lowercase" "none"))
    as (recs & Hl & _ & _ & Hlen & _); [vm_compute; reflexivity|].
  exists recs. split; assumption.
Defined.

(** ** Characters of a username *)

Ltac char_cases :=
  unfold ascii_lower, ascii_upper in *;
  unfold is_ascii_alnum in *;
  unfold is_ascii_upper, is_ascii_lower, is_ascii_digit, is_ascii_char, ord in *;
  match goal with
  | c : char |- _ =>
      destruct (N.leb_spec 65 c), (N.leb_spec c 90), (N.leb_spec 97 c),
        (N.leb_spec c 122), (N.leb_spec 48 c), (N.leb_spec c 57);
      simpl in *; try discriminate; try lia
  end;
  repeat match goal with
         | |- context [(?a <=? ?b)%N] => destruct (N.leb_spec a b); simpl in *
         end;
  try reflexivity; try discriminate; try lia.

Lemma is_ascii_alnum_is_ascii (c : char) :
  is_ascii_alnum c = true -> is_ascii_char c = true.
Proof. intros H. apply is_ascii_alnum_range in H. apply Z.ltb_lt. unfold ord. lia. Qed.

Lemma ascii_lower_alnum (c : char) :
  is_ascii_alnum c = true -> is_ascii_alnum (ascii_lower c) = true.
Proof. intros H. char_cases. Qed.

Lemma ascii_upper_alnum (c : char) :
  is_ascii_alnum c = true -> is_ascii_alnum (ascii_upper c) = true.
Proof. intros H. char_cases. Qed.

Lemma ascii_lower_not_upper (c : char) : is_ascii_upper (ascii_lower c) = false.
Proof. char_cases. Qed.

Lemma ascii_upper_not_lower (c : char) : is_ascii_lower (ascii_upper c) = false.
Proof. char_cases. Qed.

Lemma digit_not_letter (c : char) :
  is_ascii_digit c = true ->
  is_ascii_upper c = false /\ is_ascii_lower c = false /\
  is_ascii_alnum c = true.
Proof. intros H. repeat split; char_cases. Qed.

Lemma Forall_alnum_is_ascii (s : str) :
  Forall (fun c => is_ascii_alnum c = true) s -> is_ascii s = true.
Proof.
  intros H. unfold is_ascii. apply forallb_forall. rewrite Forall_forall in H.
  intros c Hc. now apply is_ascii_alnum_is_ascii, H.
Qed.

Section UsernameCharacters.
Variable ucd : UnicodeData.
Variable wordnet : CorpusReader.

Lemma case_transform_length (case word : str) :
  is_ascii word = true ->
  List.length (case_transform ucd case word) = List.length word.
Proof.
  intros H. unfold case_transform.
  destruct (str_eqb case (lit "lowercase")).
  { rewrite str_lower_ascii by assumption. apply length_map. }
  destruct (str_eqb case (lit "uppercase")).
  { rewrite str_upper_ascii by assumption. apply length_map. }
  destruct (str_eqb case (lit "capitalize")); [|reflexivity].
  destruct word as [|c rest]; [reflexivity|].
  rewrite str_capitalize_ascii by assumption. simpl. now rewrite length_map.
Qed.

Lemma case_transform_alnum (case word : str) :
  Forall (fun c => is_ascii_alnum c = true) word ->
  Forall (fun c => is_ascii_alnum c = true) (case_transform ucd case word).
Proof.
  intros H. pose proof (Forall_alnum_is_ascii word H) as Ha.
  assert (Hl : Forall (fun c => is_ascii_alnum c = true) (List.map ascii_lower word)).
  { apply Forall_map. eapply Forall_impl; [|exact H]. apply ascii_lower_alnum. }
  assert (Hu : Forall (fun c => is_ascii_alnum c = true) (List.map ascii_upper word)).
  { apply Forall_map. eapply Forall_impl; [|exact H]. apply ascii_upper_alnum. }
  unfold case_transform.
  destruct (str_eqb case (lit "lowercase")).
  { now rewrite str_lower_ascii. }
  destruct (str_eqb case (lit "uppercase")).
  { now rewrite str_upper_ascii. }
  destruct (str_eqb case (lit "capitalize")); [|assumption].
  destruct word as [|c rest]; [constructor|].
  rewrite str_capitalize_ascii by assumption.
  simpl in Hl. inversion Hl; subst. inversion H; subst.
  constructor; [now apply ascii_upper_alnum|assumption].
Qed.

(** A valid word: ASCII letters and digits, three of them at least. *)
Lemma valid_word_facts (lang_code word : str) :
  In word (valid_words ucd wordnet lang_code) ->
  Forall (fun c => is_ascii_alnum c = true) word /\
  is_ascii word = true /\ (3 <= List.length word)%nat.
Proof.
  intros Hin. apply valid_words_incl in Hin as [Hcand Hvalid].
  pose proof (is_valid_word_is_ascii word _ Hvalid) as Ha.
  apply is_valid_word_true in Hvalid as [_ Hlen].
  unfold len, default_min_len in Hlen.
  split; [|split; [assumption|lia]].
  assert (Hall : Forall (fun word => str_isalnum ucd word = true)
                        (candidate_words ucd wordnet lang_code)).
  { unfold candidate_words. apply scan_synsets_Forall; [auto|constructor]. }
  rewrite Forall_forall in Hall. specialize (Hall word Hcand).
  apply str_isalnum_forall in Hall as [_ Hall].
  apply Forall_forall. intros c Hc. specialize (Hall c Hc).
  unfold isalnum_char in Hall.
  unfold is_ascii in Ha. rewrite forallb_forall in Ha.
  now rewrite (Ha c Hc) in Hall.
Qed.
End UsernameCharacters.

(** ** One draw, whatever the corpus *)

(** X5. A draw fails exactly when the language has no valid word, and then
    with the [IndexError] of an empty choice and nothing else; it returns a
    username exactly when the language has a valid word. *)
Theorem generate_ascii_username_outcomes (ucd : UnicodeData)
    (wordnet : CorpusReader) (lang_code : str) (w : World) :
  (fst (generate_ascii_username ucd wordnet lang_code w) = Raise empty_choice <->
   valid_words ucd wordnet lang_code = []) /\
  ((exists username,
      fst (generate_ascii_username ucd wordnet lang_code w) = Ok username) <->
   valid_words ucd wordnet lang_code <> []) /\
  (forall e, fst (generate_ascii_username ucd wordnet lang_code w) = Raise e ->
             e = empty_choice).
Proof.
  destruct (generate_ascii_username_spec ucd wordnet lang_code w)
    as (_ & _ & [(Hempty & Hres & _)|(Hne & u & Hres & _)]);
    rewrite Hres; repeat split; try congruence.
  - intros [u Hu]. discriminate.
  - intros _. now exists u.
Qed.

(** X6. A username that a draw returns is a valid word of the language
    drawn, under the case style, followed by exactly as many decimal digits
    as the number style appends; the word has at least 3 characters and the
    username has as many characters as the word plus the digits. *)
Theorem generate_ascii_username_shape (ucd : UnicodeData)
    (wordnet : CorpusReader) (lang_code : str) (w : World) (username : str) :
  fst (generate_ascii_username ucd wordnet lang_code w) = Ok username ->
  exists word suffix,
    In word (valid_words ucd wordnet lang_code) /\
    username = case_transform ucd (case_var w) word ++ suffix /\
    List.length suffix = suffix_width (number_var w) /\
    Forall (fun c => is_ascii_digit c = true) suffix /\
    (3 <= List.length word)%nat /\
    List.length username =
      (List.length word + suffix_width (number_var w))%nat.
Proof.
  intros Hok.
  destruct (generate_ascii_username_spec ucd wordnet lang_code w)
    as (_ & _ & [(_ & Hres & _)|(_ & u & Hres & Hfrom & _)]);
    rewrite Hres in Hok; [discriminate|].
  injection Hok as ->.
  destruct Hfrom as (word & suffix & Hin & Hu & Hlen & Hdig).
  destruct (valid_word_facts ucd wordnet lang_code word Hin) as (_ & Ha & H3).
  exists word, suffix. repeat split; try assumption.
  rewrite Hu, length_app, case_transform_length by assumption. lia.
Qed.

(** X6, on ["Wolf07"]. *)
Lemma generate_ascii_username_shape_witness :
  fst (generate_ascii_username Samples.plain_ucd Samples.english_corpus
         (lit "eng") (Samples.world_of 7 "capitalize" "2digit"))
    = Ok (lit "Wolf07") /\
  exists word suffix,
    In word (valid_words Samples.plain_ucd Samples.english_corpus (lit "eng")) /\
    lit "Wolf07" = case_transform Samples.plain_ucd
                     (case_var (Samples.world_of 7 "capitalize" "2digit")) word
                   ++ suffix /\
    List.length suffix
      = suffix_width (number_var (Samples.world_of 7 "capitalize" "2digit")) /\
    Forall (fun c => is_ascii_digit c = true) suffix /\
    (3 <= List.length word)%nat /\
    List.length (lit "Wolf07") =
      (List.length word
       + suffix_width (number_var (Samples.world_of 7 "capitalize" "2digit")))%nat.
Proof.
  split; [vm_compute; reflexivity|].
  apply (generate_ascii_username_shape Samples.plain_ucd Samples.english_corpus
           (lit "eng") (Samples.world_of 7 "capitalize" "2digit") (lit "Wolf07")).
  vm_compute. reflexivity.
Defined.

(** X7. A username that a draw returns is made of ASCII letters and digits
    only: the candidates are alphanumeric, the filter keeps the ASCII ones,
    the case styles map letters to letters and the suffix is digits. *)
Theorem generate_ascii_username_alnum (ucd : UnicodeData)
    (wordnet : CorpusReader) (lang_code : str) (w : World) (username : str) :
  fst (generate_ascii_username ucd wordnet lang_code w) = Ok username ->
  Forall (fun c => (65 <= c <= 90)%N \/ (97 <= c <= 122)%N \/ (48 <= c <= 57)%N)
         username.
Proof.
  intros Hok.
  destruct (generate_ascii_username_spec ucd wordnet lang_code w)
    as (_ & _ & [(_ & Hres & _)|(_ & u & Hres & Hfrom & _)]);
    rewrite Hres in Hok; [discriminate|].
  injection Hok as ->.
  destruct Hfrom as (word & suffix & Hin & -> & _ & Hdig).
  destruct (valid_word_facts ucd wordnet lang_code word Hin) as (Hal & _ & _).
  eapply Forall_impl; [apply is_ascii_alnum_range|].
  apply Forall_app. split.
  - now apply case_transform_alnum.
  - eapply Forall_impl; [|exact Hdig]. intros c Hc. now apply digit_not_letter.
Qed.

(** X7, on ["WOLF007"]. *)
Lemma generate_ascii_username_alnum_witness :
  fst (generate_ascii_username Samples.plain_ucd Samples.english_corpus
         (lit "eng") (Samples.world_of 7 "uppercase" "3digit"))
    = Ok (lit "WOLF007") /\
  Forall (fun c => (65 <= c <= 90)%N \/ (97 <= c <= 122)%N \/ (48 <= c <= 57)%N)
         (lit "WOLF007").
Proof.
  split; [vm_compute; reflexivity|].
  apply (generate_ascii_username_alnum Samples.plain_ucd Samples.english_corpus
           (lit "eng") (Samples.world_of 7 "uppercase" "3digit") (lit "WOLF007")).
  vm_compute. reflexivity.
Defined.

(** X8. On an ASCII word the formatter returns as many characters as the
    word has, plus the digits; with ["lowercase"] no upper-case letter is
    left in the result, with ["uppercase"] no lower-case letter, and with
    ["capitalize"] the first character is not a lower-case letter and no
    later character is an upper-case letter. *)
Theorem finalize_username_letter_case (ucd : UnicodeData) (word : str)
    (w : World) :
  is_ascii word = true ->
  exists username,
    fst (finalize_username ucd word w) = Ok username /\
    List.length username = (List.length word + suffix_width (number_var w))%nat /\
    (case_var w = lit "lowercase" ->
       Forall (fun c => is_ascii_upper c = false) username) /\
    (case_var w = lit "uppercase" ->
       Forall (fun c => is_ascii_lower c = false) username) /\
    (case_var w = lit "capitalize" ->
       match username with
       | [] => True
       | c :: rest => is_ascii_lower c = false /\
                      Forall (fun c => is_ascii_upper c = false) rest
       end).
Proof.
  intros Ha.
  destruct (finalize_username_spec ucd word w) as (suffix & Hrun & Hlen & Hdig).
  rewrite Hrun. eexists. split; [reflexivity|].
  assert (Hnu : Forall (fun c => is_ascii_upper c = false) suffix).
  { eapply Forall_impl; [|exact Hdig]. intros c Hc. now apply digit_not_letter. }
  assert (Hnl : Forall (fun c => is_ascii_lower c = false) suffix).
  { eapply Forall_impl; [|exact Hdig]. intros c Hc. now apply digit_not_letter. }
  split; [|split; [|split]].
  - rewrite length_app, case_transform_length by assumption. lia.
  - intros ->. unfold case_transform.
    change (str_eqb (lit "lowercase") (lit "lowercase")) with true. cbv iota.
    rewrite str_lower_ascii by assumption.
    apply Forall_app. split; [|assumption].
    apply Forall_map, Forall_forall. intros c _. apply ascii_lower_not_upper.
  - intros ->. unfold case_transform.
    change (str_eqb (lit "uppercase") (lit "lowercase")) with false.
    change (str_eqb (lit "uppercase") (lit "uppercase")) with true. cbv iota.
    rewrite str_upper_ascii by assumption.
    apply Forall_app. split; [|assumption].
    apply Forall_map, Forall_forall. intros c _. apply ascii_upper_not_lower.
  - intros ->. unfold case_transform.
    change (str_eqb (lit "capitalize") (lit "lowercase")) with false.
    change (str_eqb (lit "capitalize") (lit "uppercase")) with false.
    change (str_eqb (lit "capitalize") (lit "capitalize")) with true. cbv iota.
    destruct word as [|c rest].
    + simpl. destruct suffix as [|d ds]; [exact I|].
      inversion Hnu; subst. inversion Hnl; subst. auto.
    + rewrite str_capitalize_ascii by assumption. simpl.
      split; [apply ascii_upper_not_lower|].
      apply Forall_app. split; [|assumption].
      apply Forall_map, Forall_forall. intros c' _. apply ascii_lower_not_upper.
Qed.

(** X8, on ["tAXI"] capitalized with one digit. *)
Lemma finalize_username_letter_case_witness :
  is_ascii (lit "tAXI") = true /\
  exists username,
    fst (finalize_username Samples.plain_ucd (lit "tAXI")
           (Samples.world_of 7 "capitalize" "1digit")) = Ok username /\
    List.length username =
      (List.length (lit "tAXI")
       + suffix_width (number_var (Samples.world_of 7 "capitalize" "1digit")))%nat /\
    (case_var (Samples.world_of 7 "capitalize" "1digit") = lit "lowercase" ->
       Forall (fun c => is_ascii_upper c = false) username) /\
    (case_var (Samples.world_of 7 "capitalize" "1digit") = lit "uppercase" ->
       Forall (fun c => is_ascii_lower c = false) username) /\
    (case_var (Samples.world_of 7 "capitalize" "1digit") = lit "capitalize" ->
       match username with
       | [] => True
       | c :: rest => is_ascii_lower c = false /\
                      Forall (fun c => is_ascii_upper c = false) rest
       end).
Proof.
  split; [reflexivity|].
  apply (finalize_username_letter_case Samples.plain_ucd (lit "tAXI")
           (Samples.world_of 7 "capitalize" "1digit")).
  reflexivity.
Defined.

(** ** The word query *)

(** X9. [get_words] returns the alphanumeric lemma names of the language in
    the order of the corpus, synset after synset, a name as many times as it
    occurs, and stops at the first look-up that raises, keeping what it has
    gathered until then. *)
Theorem get_words_in_order (ucd : UnicodeData) (wordnet : CorpusReader)
    (lang_code : str) (w : World) :
  fst (get_words ucd wordnet lang_code w) =
  Ok (names_until_failure ucd lang_code (yielded (all_synsets wordnet))).
Proof.
  rewrite get_words_run. cbn [fst]. unfold candidate_words.
  now rewrite scan_synsets_app.
Qed.

(** X10. [get_words] draws nothing and touches neither the styles nor the
    table.  When no look-up raised it leaves the state as it found it.
    Otherwise it hands the logger one record, the warning
    ["Failed to fetch words for '<code>': <error>"], which the logger's
    [TextHandler] writes as one line at the end of the log window. *)
Theorem get_words_only_logs (ucd : UnicodeData) (wordnet : CorpusReader)
    (lang_code : str) (w : World) :
  let w' := snd (get_words ucd wordnet lang_code w) in
  rand_tape w' = rand_tape w /\ rand_pos w' = rand_pos w /\
  case_var w' = case_var w /\ number_var w' = number_var w /\
  tree w' = tree w /\ asctime w' = asctime w /\
  match snd (scan_synsets ucd (all_synsets wordnet) lang_code []) with
  | None => w' = w
  | Some exc =>
      let msg := lit "Failed to fetch words for '" ++ lang_code ++ lit "': "
                   ++ exc_str exc in
      LOGGER w' = LOGGER w ++ [(WARNING, msg)] /\
      log_output w' =
        log_output w ++
        [TextHandler_format (asctime w (List.length (LOGGER w))) WARNING msg
           ++ newline]
  end.
Proof. exact (get_words_state ucd wordnet lang_code w). Qed.

(** ** The filter and the minimum length *)

(** X11. A word that is valid for a minimum length is valid for every
    smaller one. *)
Theorem is_valid_word_monotone (word : str) (min_len min_len' : Z) :
  min_len' <= min_len ->
  is_valid_word word min_len = true ->
  is_valid_word word min_len' = true.
Proof.
  intros Hle H. apply is_valid_word_true in H as [Hc Hl].
  apply is_valid_word_true. split; [assumption|lia].
Qed.

(** X11, on ["wolf"], valid for 4 and so for 3. *)
Lemma is_valid_word_monotone_witness :
  3 <= 4 /\ is_valid_word (lit "wolf") 4 = true /\
  is_valid_word (lit "wolf") 3 = true.
Proof.
  split; [lia|]. split; [reflexivity|].
  apply (is_valid_word_monotone (lit "wolf") 4 3); [lia|reflexivity].
Defined.

(** ** The sort *)

Section Stability.
Context {A : Type} (key : A -> str).

Lemma insert_by_filter (k : str) (x : A) (l : list A) :
  filter (fun y => str_eqb (key y) k) (insert_by key x l) =
  filter (fun y => str_eqb (key y) k) (x :: l).
Proof.
  induction l as [|y l IH]; [reflexivity|].
  cbn [insert_by]. destruct (str_ltb (key y) (key x)) eqn:E; [|reflexivity].
  cbn [filter] in *. rewrite IH.
  destruct (str_eqb (key y) k) eqn:Ey; destruct (str_eqb (key x) k) eqn:Ex;
    try reflexivity.
  apply str_eqb_eq in Ey, Ex. rewrite Ey, Ex, str_ltb_irrefl in E. discriminate.
Qed.

Lemma sort_by_filter (k : str) (l : list A) :
  filter (fun y => str_eqb (key y) k) (sort_by key l) =
  filter (fun y => str_eqb (key y) k) l.
Proof.
  induction l as [|x l IH]; [reflexivity|].
  cbn [sort_by fold_right]. fold (sort_by key l).
  rewrite insert_by_filter. cbn [filter]. now rewrite IH.
Qed.
End Stability.

(** X12. The sort only rearranges: its result is a permutation of the list
    in non-decreasing order of the keys, and it is stable: the elements with
    one and the same key come out in the order in which they went in. *)
Theorem sort_by_stable {A : Type} (key : A -> str) (l : list A) :
  Permutation l (sort_by key l) /\
  StronglySorted (key_le key) (sort_by key l) /\
  forall k, filter (fun y => str_eqb (key y) k) (sort_by key l) =
            filter (fun y => str_eqb (key y) k) l.
Proof.
  split; [apply sort_by_perm|]. split; [apply sort_by_sorted|].
  intros k. apply sort_by_filter.
Qed.

Lemma str_ltb_antisym (a b : str) :
  str_ltb a b = false -> str_ltb b a = false -> a = b.
Proof.
  revert b. induction a as [|x a IH]; intros [|y b]; simpl; try congruence.
  destruct (N.ltb_spec x y); [discriminate|].
  destruct (N.ltb_spec y x); [discriminate|].
  intros H1 H2. assert (x = y) by lia. subst. f_equal. now apply IH.
Qed.

Section Uniqueness.
Context {A : Type} (key : A -> str).

Lemma filter_head_In (f : A -> bool) (x : A) (xs l : list A) :
  filter f l = x :: xs -> In x l.
Proof.
  intros H. assert (Hin : In x (filter f l)) by (rewrite H; now left).
  now apply filter_In in Hin.
Qed.

(** Two lists in order of the keys in which the elements of each key come
    in the same order are the same list. *)
Lemma sorted_stable_unique (l1 l2 : list A) :
  StronglySorted (key_le key) l1 -> StronglySorted (key_le key) l2 ->
  (forall k, filter (fun y => str_eqb (key y) k) l1 =
             filter (fun y => str_eqb (key y) k) l2) ->
  l1 = l2.
Proof.
  intros H1. revert l2. induction H1 as [|x l1 Hs1 IH Hx]; intros l2 H2 Hf.
  - destruct l2 as [|y l2]; [reflexivity|].
    specialize (Hf (key y)). cbn [filter] in Hf.
    rewrite str_eqb_refl in Hf. discriminate.
  - destruct l2 as [|y l2].
    + specialize (Hf (key x)). cbn [filter] in Hf.
      rewrite str_eqb_refl in Hf. discriminate.
    + assert (Hk : key x = key y).
      { destruct (str_eqb (key y) (key x)) eqn:E;
          [apply str_eqb_eq in E; congruence|].
        destruct (str_eqb (key x) (key y)) eqn:E';
          [apply str_eqb_eq in E'; congruence|].
        pose proof (Hf (key x)) as Hfx. pose proof (Hf (key y)) as Hfy.
        cbn [filter] in Hfx, Hfy.
        rewrite str_eqb_refl, E in Hfx. rewrite str_eqb_refl, E' in Hfy.
        symmetry in Hfx. apply filter_head_In in Hfx.
        apply filter_head_In in Hfy.
        inversion H2 as [|? ? _ Hy]; subst.
        rewrite Forall_forall in Hx, Hy.
        specialize (Hx y Hfy). specialize (Hy x Hfx).
        unfold key_le, str_le in Hx, Hy. now apply str_ltb_antisym. }
      pose proof (Hf (key x)) as Hfx. cbn [filter] in Hfx.
      rewrite <- Hk, str_eqb_refl in Hfx. injection Hfx as Hxy Htail. subst y.
      f_equal. apply IH; [now inversion H2|].
      intros k. specialize (Hf k). cbn [filter] in Hf.
      destruct (str_eqb (key x) k); [now injection Hf|assumption].
Qed.
End Uniqueness.

(** X13. The result of the sort is the only list in non-decreasing order of
    the keys that keeps, for each key, the elements of the input in their
    order: every stable sort of the rows gives the same table. *)
Theorem sort_by_unique {A : Type} (key : A -> str) (l l' : list A) :
  StronglySorted (key_le key) l' ->
  (forall k, filter (fun y => str_eqb (key y) k) l' =
             filter (fun y => str_eqb (key y) k) l) ->
  l' = sort_by key l.
Proof.
  intros Hs Hf. apply (sorted_stable_unique key); [assumption|apply sort_by_sorted|].
  intros k. rewrite sort_by_filter. apply Hf.
Qed.

(** X13, on three rows, two of them with the same username. *)
Lemma sort_by_unique_witness :
  StronglySorted (key_le fst)
    [(lit "ab", lit "Dutch"); (lit "b", lit "English"); (lit "b", lit "Danish")] /\
  (forall k,
     filter (fun y : str * str => str_eqb (fst y) k)
       [(lit "ab", lit "Dutch"); (lit "b", lit "English"); (lit "b", lit "Danish")] =
     filter (fun y : str * str => str_eqb (fst y) k)
       [(lit "b", lit "English"); (lit "ab", lit "Dutch"); (lit "b", lit "Danish")]) /\
  [(lit "ab", lit "Dutch"); (lit "b", lit "English"); (lit "b", lit "Danish")] =
  sort_by fst
    [(lit "b", lit "English"); (lit "ab", lit "Dutch"); (lit "b", lit "Danish")].
Proof.
  assert (Hs : StronglySorted (key_le fst)
    [(lit "ab", lit "Dutch"); (lit "b", lit "English"); (lit "b", lit "Danish")]).
  { repeat constructor. }
  assert (Hf : forall k,
     filter (fun y : str * str => str_eqb (fst y) k)
       [(lit "ab", lit "Dutch"); (lit "b", lit "English"); (lit "b", lit "Danish")] =
     filter (fun y : str * str => str_eqb (fst y) k)
       [(lit "b", lit "English"); (lit "ab", lit "Dutch"); (lit "b", lit "Danish")]).
  { intros k. cbn [filter fst].
    destruct (str_eqb (lit "ab") k) eqn:E1; destruct (str_eqb (lit "b") k) eqn:E2;
      try reflexivity.
    apply str_eqb_eq in E1, E2. rewrite <- E2 in E1. discriminate. }
  split; [exact Hs|]. split; [exact Hf|].
  apply (sort_by_unique fst _ _ Hs Hf).
Defined.

(** ** NLTK data *)

Lemma str_in_In (x : str) (l : list str) : NltkData.str_in x l = true <-> In x l.
Proof.
  unfold NltkData.str_in. rewrite existsb_exists. split.
  - intros (y & Hin & E). apply str_eqb_eq in E. now subst.
  - intros Hin. exists x. split; [assumption|apply str_eqb_refl].
Qed.

Section EnsureNltkDataFacts.
Import NltkData.
Variable FS : Type.
Variable find : FS -> list str -> str -> bool.
Variable download : FS -> str -> str -> FS.
Variable nltk_data_path : str.

Lemma ensure_resource_data_path (s : State FS) (entry : str * str) :
  data_path (ensure_resource FS find download nltk_data_path s entry) = data_path s.
Proof.
  unfold ensure_resource. destruct entry as [resource path].
  destruct (find (files s) (data_path s) path); reflexivity.
Qed.

Lemma ensure_nltk_data_data_path (s : State FS) :
  data_path (ensure_nltk_data FS find download nltk_data_path s) =
  data_path (register_path FS nltk_data_path s).
Proof.
  unfold ensure_nltk_data, resources. cbn [fold_left].
  now rewrite !ensure_resource_data_path.
Qed.

Lemma register_path_In (s : State FS) :
  In nltk_data_path (data_path (register_path FS nltk_data_path s)).
Proof.
  unfold register_path.
  destruct (str_in nltk_data_path (data_path s)) eqn:E.
  - now apply str_in_In.
  - cbn [data_path]. apply in_or_app. right. now left.
Qed.
End EnsureNltkDataFacts.

(** X14. After [ensure_nltk_data] the data directory is on [nltk.data.path].
    The entries that were there stay, in their order; the directory is added
    at the end, and only when it was missing, so that a path without
    duplicates stays without duplicates and a second call changes nothing
    in the path. *)
Theorem ensure_nltk_data_path (FS : Type) (find : FS -> list str -> str -> bool)
    (download : FS -> str -> str -> FS) (nltk_data_path : str)
    (s : NltkData.State FS) :
  let ensure := NltkData.ensure_nltk_data FS find download nltk_data_path in
  In nltk_data_path (NltkData.data_path (ensure s)) /\
  (In nltk_data_path (NltkData.data_path s) ->
     NltkData.data_path (ensure s) = NltkData.data_path s) /\
  (~ In nltk_data_path (NltkData.data_path s) ->
     NltkData.data_path (ensure s) = NltkData.data_path s ++ [nltk_data_path]) /\
  (NoDup (NltkData.data_path s) -> NoDup (NltkData.data_path (ensure s))) /\
  NltkData.data_path (ensure (ensure s)) = NltkData.data_path (ensure s).
Proof.
  cbv zeta.
  assert (Hin : forall s0, In nltk_data_path (NltkData.data_path s0) ->
            NltkData.data_path
              (NltkData.ensure_nltk_data FS find download nltk_data_path s0)
            = NltkData.data_path s0).
  { intros s0 H. rewrite ensure_nltk_data_data_path. unfold NltkData.register_path.
    apply str_in_In in H. now rewrite H. }
  assert (Hout : ~ In nltk_data_path (NltkData.data_path s) ->
            NltkData.data_path
              (NltkData.ensure_nltk_data FS find download nltk_data_path s)
            = NltkData.data_path s ++ [nltk_data_path]).
  { intros H. rewrite ensure_nltk_data_data_path. unfold NltkData.register_path.
    destruct (NltkData.str_in nltk_data_path (NltkData.data_path s)) eqn:E;
      [apply str_in_In in E; contradiction|reflexivity]. }
  assert (Hafter : In nltk_data_path
            (NltkData.data_path
               (NltkData.ensure_nltk_data FS find download nltk_data_path s))).
  { rewrite ensure_nltk_data_data_path. apply register_path_In. }
  split; [exact Hafter|]. split; [apply Hin|]. split; [exact Hout|]. split.
  - intros Hnd.
    destruct (in_dec (list_eq_dec N.eq_dec) nltk_data_path (NltkData.data_path s))
      as [H|H].
    + now rewrite Hin.
    + rewrite Hout by assumption. apply NoDup_app.
      * assumption.
      * repeat constructor. intros [].
      * intros x Hx [<-|[]]. contradiction.
  - now apply Hin.
Qed.

(** X15. [ensure_nltk_data] asks for at most two downloads, of ["wordnet"]
    and of ["omw-1.4"] in that order, each into the data directory and
    nowhere else.  When both resources are found on the path as extended,
    nothing is downloaded and the disk is as before.  It logs one record for
    each of the two resources, and one more when it has added the
    directory. *)
Theorem ensure_nltk_data_downloads (FS : Type)
    (find : FS -> list str -> str -> bool)
    (download : FS -> str -> str -> FS) (nltk_data_path : str)
    (s : NltkData.State FS) :
  let s' := NltkData.ensure_nltk_data FS find download nltk_data_path s in
  let wordnet_call := (lit "wordnet", nltk_data_path) in
  let omw_call := (lit "omw-1.4", nltk_data_path) in
  (exists new,
     NltkData.download_calls s' = NltkData.download_calls s ++ new /\
     (new = [] \/ new = [wordnet_call] \/ new = [omw_call] \/
      new = [wordnet_call; omw_call])) /\
  (find (NltkData.files s) (NltkData.data_path s') (lit "corpora/wordnet") = true ->
   find (NltkData.files s) (NltkData.data_path s') (lit "corpora/omw-1.4") = true ->
   NltkData.download_calls s' = NltkData.download_calls s /\
   NltkData.files s' = NltkData.files s) /\
  (find (NltkData.files s) (NltkData.data_path s') (lit "corpora/wordnet") = false ->
   exists rest, NltkData.download_calls s' =
                NltkData.download_calls s ++ wordnet_call :: rest) /\
  List.length (NltkData.records s') =
    (List.length (NltkData.records s) + 2
     + (if NltkData.str_in nltk_data_path (NltkData.data_path s) then 0 else 1))%nat.
Proof.
  cbv zeta. rewrite ensure_nltk_data_data_path.
  unfold NltkData.ensure_nltk_data, NltkData.resources. cbn [fold_left].
  set (s0 := NltkData.register_path FS nltk_data_path s).
  assert (H0 : NltkData.files s0 = NltkData.files s /\
               NltkData.download_calls s0 = NltkData.download_calls s /\
               List.length (NltkData.records s0) =
                 (List.length (NltkData.records s)
                  + (if NltkData.str_in nltk_data_path (NltkData.data_path s)
                     then 0 else 1))%nat).
  { unfold s0, NltkData.register_path.
    destruct (NltkData.str_in nltk_data_path (NltkData.data_path s));
      cbn; rewrite ?length_app; simpl; repeat split; lia. }
  destruct H0 as (Hf0 & Hd0 & Hr0). rewrite <- Hf0, <- Hd0.
  unfold NltkData.ensure_resource.
  destruct (find (NltkData.files s0) (NltkData.data_path s0) (lit "corpora/wordnet"))
    eqn:E1; cbn [NltkData.files NltkData.data_path NltkData.download_calls
                   NltkData.records];
  match goal with
  | |- context [if find ?f ?p (lit "corpora/omw-1.4") then _ else _] =>
      destruct (find f p (lit "corpora/omw-1.4")) eqn:E2
  end;
  cbn [NltkData.files NltkData.data_path NltkData.download_calls NltkData.records];
  rewrite ?length_app; cbn [List.length];
  (split; [|split; [|split; [|lia]]]);
  try (intros; congruence); try (intros; split; congruence).
  all: try (eexists; split; [symmetry; apply app_nil_r|tauto]).
  all: try (eexists; split; [reflexivity|tauto]).
  all: try (eexists; split; [rewrite <- app_assoc; reflexivity|tauto]).
  all: try (intros _; eexists; reflexivity).
  all: try (intros _; eexists; rewrite <- app_assoc; reflexivity).
Qed.

(** ** What a batch depends on *)

Lemma respects_ret {A} (a : A) : respects_agree (ret a).
Proof. intros w1 w2 H. split; [reflexivity|exact H]. Qed.

Lemma respects_raise {A} (e : exception) : respects_agree (@raise A e).
Proof. intros w1 w2 H. split; [reflexivity|exact H]. Qed.

Lemma respects_bind {A B} (m : M A) (k : A -> M B) :
  respects_agree m -> (forall a, respects_agree (k a)) ->
  respects_agree (bind m k).
Proof.
  intros Hm Hk w1 w2 H. unfold bind. destruct (Hm w1 w2 H) as [Hf Hs].
  destruct (m w1) as [[a1|e1] w1'], (m w2) as [[a2|e2] w2'];
    cbn [fst snd] in *; try discriminate.
  - injection Hf as ->. now apply Hk.
  - injection Hf as ->. split; [reflexivity|assumption].
Qed.

Lemma respects_LOGGER_log (lvl : log_level) (msg : str) :
  respects_agree (LOGGER_log lvl msg).
Proof. intros w1 w2 H. split; [reflexivity|exact H]. Qed.

Lemma respects_log_output_insert (text : str) :
  respects_agree (log_output_insert text).
Proof. intros w1 w2 H. split; [reflexivity|exact H]. Qed.

Lemma respects_tree_insert (row : str * str) : respects_agree (tree_insert row).
Proof.
  intros w1 w2 (Ht & Hp & Hc & Hn & Htr). split; [reflexivity|].
  unfold agree, tree_insert. cbn. now rewrite Htr.
Qed.

Lemma respects_get_case_var : respects_agree get_case_var.
Proof.
  intros w1 w2 H. unfold get_case_var. cbn. split; [|exact H].
  f_equal. apply H.
Qed.

Lemma respects_get_number_var : respects_agree get_number_var.
Proof.
  intros w1 w2 H. unfold get_number_var. cbn. split; [|exact H].
  f_equal. apply H.
Qed.

Lemma respects_randbelow (n : Z) : respects_agree (randbelow n).
Proof.
  intros w1 w2 (Ht & Hp & Hc & Hn & Htr). unfold randbelow, next_draw. cbn.
  split.
  - now rewrite Hp, Ht.
  - unfold agree. cbn. auto.
Qed.

#[local] Hint Resolve respects_ret respects_raise respects_LOGGER_log
  respects_log_output_insert respects_tree_insert respects_get_case_var
  respects_get_number_var respects_randbelow : frame.

Ltac respects_step :=
  repeat first
    [ apply respects_bind; [|intros ?]
    | solve [auto with frame]
    | match goal with
      | |- respects_agree (if ?b then _ else _) => destruct b
      | |- respects_agree (match ?x with _ => _ end) => destruct x
      end ].

Lemma respects_randint (a b : Z) : respects_agree (randint a b).
Proof. unfold randint. respects_step. Qed.

Lemma respects_choice {A} (seq : list A) : respects_agree (choice seq).
Proof. unfold choice. respects_step. Qed.

#[local] Hint Resolve respects_randint respects_choice : frame.

Lemma respects_tree_insert_all (rows : list (str * str)) :
  respects_agree (tree_insert_all rows).
Proof. induction rows as [|row rows IH]; simpl; respects_step. Qed.

#[local] Hint Resolve respects_tree_insert_all : frame.

Section Respects.
Variable ucd : UnicodeData.
Variable wordnet : CorpusReader.

Lemma respects_get_words (lang_code : str) :
  respects_agree (get_words ucd wordnet lang_code).
Proof. unfold get_words. respects_step. Qed.

Lemma respects_finalize_username (word : str) :
  respects_agree (finalize_username ucd word).
Proof. unfold finalize_username. respects_step. Qed.

Hint Resolve respects_get_words respects_finalize_username : frame.

Lemma respects_generate_ascii_username (lang_code : str) :
  respects_agree (generate_ascii_username ucd wordnet lang_code).
Proof. unfold generate_ascii_username. respects_step. Qed.

Hint Resolve respects_generate_ascii_username : frame.

Lemma respects_generation_loop (indices : list Z) (total : Z)
    (usernames : list (str * str)) :
  respects_agree (generation_loop ucd wordnet indices total usernames).
Proof.
  revert usernames. induction indices as [|i indices IH]; intros usernames;
    simpl; respects_step.
Qed.

(** [generate_usernames], from the state in which its loop starts. *)
Lemma generate_usernames_from_start (w : World) :
  generate_usernames ucd wordnet w =
  bind (generation_loop ucd wordnet (range 40) 40 [])
       (fun usernames =>
          bind (tree_insert_all (sort_by fst usernames))
            (fun _ =>
               bind (LOGGER_log INFO
                       (lit "Username generation completed successfully."))
                 (fun _ =>
                    log_output_insert
                      (lit "Username generation completed successfully."
                         ++ newline))))
       (batch_start w).
Proof. reflexivity. Qed.
End Respects.

(** X16. What a batch returns and what it leaves in the table depend on the
    draws to come and on the two styles, and on nothing else: the rows of an
    earlier batch, the text of the log window and the logger's records play
    no part. *)
Theorem generate_usernames_independent (ucd : UnicodeData)
    (wordnet : CorpusReader) (w1 w2 : World) :
  (forall i, rand_tape w1 i = rand_tape w2 i) ->
  rand_pos w1 = rand_pos w2 ->
  case_var w1 = case_var w2 ->
  number_var w1 = number_var w2 ->
  fst (generate_usernames ucd wordnet w1) = fst (generate_usernames ucd wordnet w2) /\
  tree (snd (generate_usernames ucd wordnet w1)) =
  tree (snd (generate_usernames ucd wordnet w2)) /\
  rand_pos (snd (generate_usernames ucd wordnet w1)) =
  rand_pos (snd (generate_usernames ucd wordnet w2)).
Proof.
  intros Ht Hp Hc Hn. rewrite !generate_usernames_from_start.
  match goal with
  | |- fst (?m _) = _ /\ _ =>
      assert (Hm : respects_agree m)
        by (apply respects_bind;
            [apply respects_generation_loop|intros ?; respects_step])
  end.
  assert (Hstart : agree (batch_start w1) (batch_start w2)).
  { unfold agree, batch_start. cbn. auto. }
  destruct (Hm _ _ Hstart) as (Hf & _ & Hp' & _ & _ & Htr).
  auto.
Qed.

(** X16, on a fresh state and on one that an earlier batch has used. *)
Lemma generate_usernames_independent_witness :
  fst (generate_usernames Samples.plain_ucd Samples.shared_corpus
         (Samples.world_of 3 "capitalize" "1digit")) =
  fst (generate_usernames Samples.plain_ucd Samples.shared_corpus
         (used_world 3 "capitalize" "1digit")) /\
  tree (snd (generate_usernames Samples.plain_ucd Samples.shared_corpus
               (Samples.world_of 3 "capitalize" "1digit"))) =
  tree (snd (generate_usernames Samples.plain_ucd Samples.shared_corpus
               (used_world 3 "capitalize" "1digit"))) /\
  rand_pos (snd (generate_usernames Samples.plain_ucd Samples.shared_corpus
                   (Samples.world_of 3 "capitalize" "1digit"))) =
  rand_pos (snd (generate_usernames Samples.plain_ucd Samples.shared_corpus
                   (used_world 3 "capitalize" "1digit"))).
Proof.
  apply (generate_usernames_independent Samples.plain_ucd Samples.shared_corpus
           (Samples.world_of 3 "capitalize" "1digit")
           (used_world 3 "capitalize" "1digit"));
    reflexivity.
Defined.

(** ** The usernames of a table *)

Lemma formatted_from_facts (ucd : UnicodeData) (wordnet : CorpusReader)
    (case number lang_code username : str) :
  formatted_from ucd wordnet case number lang_code username ->
  Forall (fun c => is_ascii_alnum c = true) username /\
  (3 + suffix_width number <= List.length username)%nat.
Proof.
  intros (word & suffix & Hin & -> & Hlen & Hdig).
  destruct (valid_word_facts ucd wordnet lang_code word Hin) as (Hal & Ha & H3).
  split.
  - apply Forall_app. split; [now apply case_transform_alnum|].
    eapply Forall_impl; [|exact Hdig]. intros c Hc. now apply digit_not_letter.
  - rewrite length_app, case_transform_length by assumption. lia.
Qed.

(** X17. After a batch that succeeded every username in the table is made
    of ASCII letters and digits only and has at least 3 characters besides
    its digits, and every display name beside it is one of the 19 names of
    the table of languages, never a bare language code. *)
Theorem generate_usernames_table_rows (ucd : UnicodeData)
    (wordnet : CorpusReader) (w : World) :
  fst (generate_usernames ucd wordnet w) = Ok tt ->
  Forall (fun row : str * str =>
            Forall (fun c => (65 <= c <= 90)%N \/ (97 <= c <= 122)%N \/
                             (48 <= c <= 57)%N) (fst row) /\
            (3 + suffix_width (number_var w) <= List.length (fst row))%nat /\
            In (snd row) (List.map snd language_names) /\
            ~ In (snd row) language_codes)
         (tree (snd (generate_usernames ucd wordnet w))).
Proof.
  intros Hok.
  destruct (generate_usernames_spec ucd wordnet w) as (_ & _ & _ & Hcases).
  destruct Hcases as [(rows & _ & Htree & _ & Hrows & _)|(Hfail & _)];
    [|rewrite Hfail in Hok; discriminate].
  rewrite Htree. eapply Permutation_Forall; [apply sort_by_perm|].
  eapply Forall_impl; [|exact Hrows].
  intros row (code & Hname & Hfrom).
  destruct (formatted_from_facts _ _ _ _ _ _ Hfrom) as (Hal & Hlen).
  split; [|split; [assumption|]].
  - eapply Forall_impl; [apply is_ascii_alnum_range|exact Hal].
  - assert (Hin : In (snd row) (List.map snd language_names))
      by (apply in_map_iff; exists (code, snd row); auto).
    split; [exact Hin|].
    assert (Hdisj : forallb (fun name => negb (NltkData.str_in name language_codes))
                            (List.map snd language_names) = true)
      by (vm_compute; reflexivity).
    rewrite forallb_forall in Hdisj. specialize (Hdisj _ Hin).
    intros Hcode. apply str_in_In in Hcode. rewrite Hcode in Hdisj. discriminate.
Qed.

(** X17, on the corpus with a word for every language. *)
Lemma generate_usernames_table_rows_witness :
  fst (generate_usernames Samples.plain_ucd Samples.shared_corpus
         (Samples.world_of 5 "uppercase" "3digit")) = Ok tt /\
  Forall (fun row : str * str =>
            Forall (fun c => (65 <= c <= 90)%N \/ (97 <= c <= 122)%N \/
                             (48 <= c <= 57)%N) (fst row) /\
            (3 + suffix_width (number_var (Samples.world_of 5 "uppercase" "3digit"))
             <= List.length (fst row))%nat /\
            In (snd row) (List.map snd language_names) /\
            ~ In (snd row) language_codes)
         (tree (snd (generate_usernames Samples.plain_ucd Samples.shared_corpus
                       (Samples.world_of 5 "uppercase" "3digit")))).
Proof.
  split; [vm_compute; reflexivity|].
  apply (generate_usernames_table_rows Samples.plain_ucd Samples.shared_corpus
           (Samples.world_of 5 "uppercase" "3digit")).
  vm_compute. reflexivity.
Defined.

(** ** No second choice *)

Lemma loop_languages_length (ucd : UnicodeData) (wordnet : CorpusReader)
    (indices : list Z) (total : Z) (w : World) :
  (List.length (loop_languages ucd wordnet indices total w)
   <= List.length indices)%nat.
Proof.
  revert w. induction indices as [|i indices IH]; intros w; [simpl; lia|].
  cbn [loop_languages]. cbv zeta.
  destruct (choice language_codes _) as [[code|e] w2]; [|simpl; lia].
  destruct (generate_ascii_username ucd wordnet code w2) as [[u|e] w3].
  - simpl. specialize (IH w3). lia.
  - simpl. lia.
Qed.

(** C1, as the code has it.  There is no retry and no error of the
    generator's own.  A batch chooses one language for each username, 40 at
    most; it chooses no language after one whose set of valid words is
    empty; and it succeeds, with 40 rows of which the k-th (before the sort)
    is made from a valid word of the k-th language chosen, exactly when
    every language it chose has a valid word.  No exception of the class
    [NoValidWordsError] leaves it. *)
Theorem generate_usernames_empty_choice (ucd : UnicodeData)
    (wordnet : CorpusReader) (w : World) :
  let drawn := languages_drawn ucd wordnet w in
  (List.length drawn <= 40)%nat /\
  (fst (generate_usernames ucd wordnet w) = Ok tt <->
   Forall (has_valid_words ucd wordnet) drawn) /\
  (fst (generate_usernames ucd wordnet w) = Ok tt ->
   List.length drawn = 40%nat /\
   exists rows,
     tree (snd (generate_usernames ucd wordnet w)) = sort_by fst rows /\
     Forall2 (fun lang_code row =>
                In (lang_code, snd row) language_names /\
                formatted_from ucd wordnet (case_var w) (number_var w)
                  lang_code (fst row)) drawn rows) /\
  (fst (generate_usernames ucd wordnet w) <> Ok tt ->
   exists pre lang_code,
     drawn = pre ++ [lang_code] /\
     Forall (has_valid_words ucd wordnet) pre /\
     valid_words ucd wordnet lang_code = []) /\
  (forall e, fst (generate_usernames ucd wordnet w) = Raise e ->
             exc_class e <> "NoValidWordsError"%string).
Proof.
  cbv zeta.
  assert (Hlen : (List.length (languages_drawn ucd wordnet w) <= 40)%nat).
  { unfold languages_drawn.
    pose proof (loop_languages_length ucd wordnet (range 40) 40 (batch_start w)) as H.
    change (List.length (range 40)) with 40%nat in H. exact H. }
  split; [exact Hlen|].
  destruct (generate_usernames_spec ucd wordnet w) as (_ & _ & _ & Hcases).
  cbv zeta in Hcases.
  destruct Hcases as [(rows & Hok & Htree & Hrows & _ & _ & (Hfrom & Hvalid) & _)
                     |(Hfail & _ & _ & pre & code & Hdrawn & Hpre & Hempty)].
  - rewrite Hok. split; [split; auto|]. split; [|split].
    + intros _. split.
      * rewrite (Forall2_length Hfrom). exact Hrows.
      * exists rows. auto.
    + intros H. contradiction.
    + intros e He. discriminate.
  - rewrite Hfail. split; [|split; [|split]].
    + split; [discriminate|]. intros Hall. rewrite Hdrawn in Hall.
      apply Forall_app in Hall as [_ Hlast]. inversion Hlast; subst.
      unfold has_valid_words in *. contradiction.
    + discriminate.
    + intros _. exists pre, code. auto.
    + intros e He. injection He as <-. vm_compute. discriminate.
Qed.

(** C1, on a batch that chooses English three times and then Spanish, which
    has no word: four choices, none after Spanish, and no table. *)
Lemma generate_usernames_empty_choice_witness :
  languages_drawn Samples.plain_ucd Samples.english_corpus fourth_draw_world
    = [lit "eng"; lit "eng"; lit "eng"; lit "spa"] /\
  valid_words Samples.plain_ucd Samples.english_corpus (lit "spa") = [] /\
  fst (generate_usernames Samples.plain_ucd Samples.english_corpus
         fourth_draw_world) <> Ok tt.
Proof.
  split; [vm_compute; reflexivity|]. split; [reflexivity|].
  destruct (generate_usernames_empty_choice Samples.plain_ucd
              Samples.english_corpus fourth_draw_world)
    as (_ & [Hok _] & _).
  intros H. apply Hok in H.
  assert (Hd : languages_drawn Samples.plain_ucd Samples.english_corpus
                 fourth_draw_world
               = [lit "eng"; lit "eng"; lit "eng"; lit "spa"])
    by (vm_compute; reflexivity).
  rewrite Hd in H.
  inversion H as [|? ? _ H1]; subst. inversion H1 as [|? ? _ H2]; subst.
  inversion H2 as [|? ? _ H3]; subst. inversion H3 as [|? ? Hspa _]; subst.
  apply Hspa. reflexivity.
Defined.
